(** * ONSLAWT: the adaptive UDP ramp of [adaptive_udp.py]

    A shallow embedding of the bandwidth codec ([parse_bps], [bps_to_str]),
    of the probe adapter ([run_iperf], [extract_udp_stats]) and of the ramp
    controller in [main], followed by the properties of the capacity search.
    The helpers of the other scripts that are pure and print a bandwidth or
    build a name are embedded beside it: [human_bps] of [analyze_results.py],
    [fmt_bps] of [report_results.py], [slugify] and the base of a test name of
    [update_tests_from_public_list.py].

    Numbers.  A Python float is an IEEE 754 double; it is modelled by the
    primitive type [float], whose operations are those of the machine and are
    specified by [FloatAxioms] against [SpecFloat].  Every sum, difference,
    product, quotient and comparison of the controller is the rounded one of
    the code.  The infinities and the value that is not a number behave as in
    Python: [float] reads [inf], [infinity] and [nan], and a comparison with
    the value that is not a number is false.  [float(s)] rounds a decimal
    literal to the nearest double and a format such as [.3f] prints the
    decimal nearest to the exact binary value, both with ties to even, as
    CPython does.  A number of an iperf3 report is taken as the double it
    denotes.  Text is ASCII.

    The outside world.  [subprocess.run] is an oracle: a function from the
    number of probes already issued and the command line to what the process
    did.  The controller threads the list of command lines it has issued. *)

From Stdlib Require Import ZArith String Ascii List Bool Lia Floats.
From Stdlib Require Import Decimal DecimalString.
From stdpp Require Import gmap strings.

Import ListNotations.
Local Open Scope string_scope.
Local Open Scope list_scope.

(** ** Python string helpers *)

Module PyStr.

(** ASCII white space, as [str.strip] and [float] skip it. *)
Definition is_space (c : ascii) : bool :=
  let n := nat_of_ascii c in
  ((9 <=? n) && (n <=? 13) || (28 <=? n) && (n <=? 32))%nat.

Fixpoint lstrip (s : string) : string :=
  match s with
  | String c r => if is_space c then lstrip r else s
  | EmptyString => EmptyString
  end.

(** [rstrip] keeps a character when it is not a space or when something
    that is kept follows it. *)
Fixpoint rstrip (s : string) : string :=
  match s with
  | EmptyString => EmptyString
  | String c r =>
      match rstrip r with
      | EmptyString => if is_space c then EmptyString else String c EmptyString
      | r' => String c r'
      end
  end.

Definition strip (s : string) : string := rstrip (lstrip s).

Definition lower_ascii (c : ascii) : ascii :=
  let n := nat_of_ascii c in
  if ((65 <=? n) && (n <=? 90))%nat then ascii_of_nat (n + 32) else c.

Fixpoint lower (s : string) : string :=
  match s with
  | EmptyString => EmptyString
  | String c r => String (lower_ascii c) (lower r)
  end.

(** [endswith1 s c]: [s.endswith(c)] for a one-character suffix. *)
Fixpoint endswith1 (s : string) (c : ascii) : bool :=
  match s with
  | EmptyString => false
  | String a EmptyString => Ascii.eqb a c
  | String _ r => endswith1 r c
  end.

(** [s[:-1]] *)
Fixpoint drop_last (s : string) : string :=
  match s with
  | EmptyString => EmptyString
  | String _ EmptyString => EmptyString
  | String a r => String a (drop_last r)
  end.

(** [" ".join(l)] *)
Fixpoint join (sep : string) (l : list string) : string :=
  match l with
  | [] => ""
  | [x] => x
  | x :: r => x ++ sep ++ join sep r
  end.

(** [str(n)] for an integer. *)
Definition str_Z (n : Z) : string := NilZero.string_of_int (Z.to_int n).

Fixpoint zeros (n : nat) : string :=
  match n with O => "" | S k => String "0" (zeros k) end.

(** A natural number in decimal, left-padded with zeros to [w] digits. *)
Definition zero_pad (w : nat) (n : Z) : string :=
  let s := str_Z n in zeros (w - String.length s) ++ s.

End PyStr.

(** ** Decimal literals and fixed-point formatting *)

Module PyFloat.

Definition digit_of (c : ascii) : option Z :=
  let n := nat_of_ascii c in
  if ((48 <=? n) && (n <=? 57))%nat then Some (Z.of_nat (n - 48)) else None.

(** [digitpart acc k s] reads [digit (["_"] digit)*] with the first digit
    already consumed: [acc] is the number read so far and [k] the number of
    digits.  It returns the number, the digit count and the rest. *)
Fixpoint digitpart (acc : Z) (k : nat) (s : string) : Z * nat * string :=
  match s with
  | String c r =>
      match digit_of c with
      | Some d => digitpart (10 * acc + d) (S k) r
      | None =>
          if Ascii.eqb c "_" then
            match r with
            | String c' r' =>
                match digit_of c' with
                | Some d => digitpart (10 * acc + d) (S k) r'
                | None => (acc, k, s)
                end
            | EmptyString => (acc, k, s)
            end
          else (acc, k, s)
      end
  | EmptyString => (acc, k, s)
  end.

(** A digit part that must start with a digit; [acc] and [k] carry what was
    read before it (the integer part, when this is the fraction). *)
Definition digits1 (acc : Z) (k : nat) (s : string) : option (Z * nat * string) :=
  match s with
  | String c r =>
      match digit_of c with
      | Some d => Some (digitpart (10 * acc + d) (S k) r)
      | None => None
      end
  | EmptyString => None
  end.

Definition sign (s : string) : bool * string :=
  match s with
  | String "-" r => (true, r)
  | String "+" r => (false, r)
  | _ => (false, s)
  end.

(** The exponent [e [sign] digitpart], which must end the literal. *)
Definition exponent (s : string) : option Z :=
  match s with
  | EmptyString => Some 0%Z
  | String c r =>
      if Ascii.eqb c "e" || Ascii.eqb c "E" then
        let '(neg, r') := sign r in
        match digits1 0 0 r' with
        | Some (e, _, EmptyString) => Some (if neg then (- e)%Z else e)
        | _ => None
        end
      else None
  end.

(** The mantissa [digitpart ["." [digitpart]] | "." digitpart]: the digits
    as one integer, the number of digits after the point, and the rest. *)
Definition mantissa (s : string) : option (Z * nat * string) :=
  match s with
  | String "." r => digits1 0 0 r
  | _ =>
      match digits1 0 0 s with
      | Some (m, _, String "." r) =>
          match digits1 m 0 r with
          | Some res => Some res
          | None => Some (m, O, r)
          end
      | Some (m, _, r) => Some (m, O, r)
      | None => None
      end
  end.

(** The double nearest to [m * 10^e], ties to even, with the sign [neg]: the
    value [float] gives a decimal literal.  Beyond the range it is an
    infinity, below it a zero. *)
Definition of_decimal (neg : bool) (m e : Z) : float :=
  let x :=
    match m with
    | Zpos p =>
        SF2Prim
          (if (0 <=? e)%Z then binary_normalize prec emax (Zpos p * 10 ^ e) 0 false
           else SFdiv prec emax (S754_finite false p 0)
                  (S754_finite false (Z.to_pos (10 ^ (- e))) 0))
    | _ => PrimFloat.zero
    end in
  if neg then (- x)%float else x.

(** [float(s)]: white space around, a sign, then [inf], [infinity] or [nan]
    in any case, or a decimal literal of Python's grammar.  [None] is the
    [ValueError]. *)
Definition float_of_string (s : string) : option float :=
  let '(neg, r) := sign (PyStr.strip s) in
  let w := PyStr.lower r in
  if String.eqb w "inf" || String.eqb w "infinity" then
    Some (if neg then PrimFloat.neg_infinity else PrimFloat.infinity)
  else if String.eqb w "nan" then Some PrimFloat.nan
  else
    match mantissa r with
    | Some (m, k, r') =>
        match exponent r' with
        | Some e => Some (of_decimal neg m (e - Z.of_nat k))
        | None => None
        end
    | None => None
    end.

(** The integer nearest to [a / b], ties to even, for [a >= 0] and [b > 0]:
    the rounding of the [f] presentation type. *)
Definition round_half_even (a b : Z) : Z :=
  let f := (a / b)%Z in
  let r := (a mod b)%Z in
  match (2 * r ?= b)%Z with
  | Lt => f
  | Gt => (f + 1)%Z
  | Eq => if Z.even f then f else (f + 1)%Z
  end.

(** The digits of [n / 10^d] with [d] decimals. *)
Definition fixed (d : nat) (n : Z) : string :=
  let ip := PyStr.str_Z (n / 10 ^ Z.of_nat d) in
  match d with
  | O => ip
  | _ => ip ++ "." ++ PyStr.zero_pad d (n mod 10 ^ Z.of_nat d)
  end.

(** [f"{x:.{d}f}"]: the exact value [m * 2^e] of the double, rounded to [d]
    decimals, ties to even; the sign is the sign bit. *)
Definition format_f (d : nat) (x : float) : string :=
  match Prim2SF x with
  | S754_nan => "nan"
  | S754_infinity s => if s then "-inf" else "inf"
  | S754_zero s => (if s then "-" else "") ++ fixed d 0
  | S754_finite s m e =>
      let n :=
        if (0 <=? e)%Z then (Zpos m * 2 ^ e * 10 ^ Z.of_nat d)%Z
        else round_half_even (Zpos m * 10 ^ Z.of_nat d) (2 ^ (- e)) in
      (if s then "-" else "") ++ fixed d n
  end.

End PyFloat.

(** ** Bandwidth value codec *)

Definition parse_bps (value : option string) : option float :=
  match value with
  | None => None
  | Some v =>
      let s := PyStr.lower (PyStr.strip v) in
      if String.eqb s "" then None
      else
        let '(mult, s) :=
          if PyStr.endswith1 s "k" then (1e3%float, PyStr.drop_last s)
          else if PyStr.endswith1 s "m" then (1e6%float, PyStr.drop_last s)
          else if PyStr.endswith1 s "g" then (1e9%float, PyStr.drop_last s)
          else if PyStr.endswith1 s "t" then (1e12%float, PyStr.drop_last s)
          else (1%float, s) in
        match PyFloat.float_of_string s with
        | Some x => Some (x * mult)%float
        | None => None
        end
  end.

Definition bps_to_str (bps : float) : string :=
  if (1e9 <=? bps)%float then PyFloat.format_f 3 (bps / 1e9)%float ++ "G"
  else if (1e6 <=? bps)%float then PyFloat.format_f 3 (bps / 1e6)%float ++ "M"
  else if (1e3 <=? bps)%float then PyFloat.format_f 3 (bps / 1e3)%float ++ "K"
  else PyFloat.format_f 0 bps.

(** ** Probe executor adapter *)

(** The [sum] object of an iperf3 report: a dictionary of numbers.  The
    report is taken well-typed: objects where the code calls [.get] and
    numbers where it compares.  The numbers are doubles; an integer of the
    report up to 2^53 compares and multiplies as the double it converts to. *)
Abbreviation report_sum := (gmap string float).
Abbreviation report_end := (gmap string (gmap string float)).
Abbreviation report := (gmap string (gmap string (gmap string float))).

(** What [subprocess.run] did: it ran out of time, or it completed with a
    return code, an output ([None] when [json.loads] rejects it) and the
    text of its error stream. *)
Inductive completed : Type :=
  | TimeoutExpired
  | CompletedProcess (returncode : Z) (stdout : option report) (stderr : string).

(** The oracle: probe number, command line, timeout. *)
Definition subprocess := nat -> list string -> Z -> completed.

(** The dictionary [run_iperf] returns.  The [stdout] entry of a
    [json_parse] error is never read by [main] and is left out. *)
Inductive iperf_result : Type :=
  | IperfError (error : string) (cmd : string) (stderr : option string)
  | IperfData (data : report) (cmd : string).

Definition iperf_cmd (server : string) (port : Z) (direction : string)
    (duration parallel : Z) (bandwidth : string) : list string :=
  let cmd := ["iperf3"; "-c"; server; "-p"; PyStr.str_Z port; "-t"; PyStr.str_Z duration;
              "-P"; PyStr.str_Z parallel; "-J"; "-u"; "-b"; bandwidth] in
  if String.eqb direction "downlink" then cmd ++ ["-R"] else cmd.

(** [run_iperf]: [calls] is the log of the command lines issued so far; the
    call appends its own. *)
Definition run_iperf (run : subprocess) (calls : list (list string))
    (server : string) (port : Z) (direction : string) (duration parallel : Z)
    (bandwidth : string) (timeout_sec : Z) : iperf_result * list (list string) :=
  let cmd := iperf_cmd server port direction duration parallel bandwidth in
  let calls' := calls ++ [cmd] in
  match run (length calls) cmd timeout_sec with
  | TimeoutExpired => (IperfError "timeout" (PyStr.join " " cmd) None, calls')
  | CompletedProcess returncode stdout stderr =>
      if negb (returncode =? 0)%Z then
        (IperfError ("exit_" ++ PyStr.str_Z returncode) (PyStr.join " " cmd) (Some stderr), calls')
      else
        match stdout with
        | None => (IperfError "json_parse" (PyStr.join " " cmd) None, calls')
        | Some data => (IperfData data (PyStr.join " " cmd), calls')
        end
  end.

Record udp_stats : Type := {
  throughput_bps : option float;
  jitter_ms : option float;
  loss_percent : option float;
  packets : option float
}.

(** Python's [a or b] on dictionaries: the empty one is falsy. *)
Definition dict_or {V} (a b : gmap string V) : gmap string V :=
  if decide (a = ∅) then b else a.

Definition extract_udp_stats (data : report) : udp_stats :=
  let end_ : report_end := default ∅ (data !! "end") in
  let sum_ : report_sum :=
    dict_or (default ∅ (end_ !! "sum")) (dict_or (default ∅ (end_ !! "sum_received")) ∅) in
  {| throughput_bps := sum_ !! "bits_per_second";
     jitter_ms := sum_ !! "jitter_ms";
     loss_percent := sum_ !! "lost_percent";
     packets := sum_ !! "packets" |}.

(** ** Session data *)

Module Args.
(** The parsed command line.  [meta] is what [json.loads(args.meta)] gives:
    [MetaInvalid] when it raises, an object, or some other JSON value. *)
#[local] Unset Elimination Schemes.
Inductive json : Type :=
  | JNull
  | JBool (b : bool)
  | JNum (x : float)
  | JStr (s : string)
  | JArr (l : list json)
  | JObj (o : list (string * json)).
#[local] Set Elimination Schemes.

Inductive meta_arg : Type :=
  | MetaInvalid
  | MetaObject (m : gmap string json)
  | MetaOther (v : json).

Record t : Type := {
  server : string;
  port : Z;
  direction : string;
  duration : Z;
  parallel : Z;
  start : string;
  step : string;
  max_bps : string;
  loss_threshold : float;
  jitter_threshold : float;
  drop_threshold : float;
  timeout : Z;
  out : string;
  meta : meta_arg
}.
End Args.

(** One entry of [steps].  The role markers [confirm] and [fallback] are
    keys that are present (and [True]) or absent. *)
Record step_record : Type := {
  target_bps : float;
  target_str : string;
  ok : bool;
  error : option string;
  cmd : option string;
  stderr : option string;
  stats : option udp_stats;
  confirm : bool;
  fallback : bool
}.

(** The local variables of [main] that the loop reads and writes, and the log
    of the probes issued. *)
Record session : Type := {
  steps : list step_record;
  last_ok : option step_record;
  stop_reason : string;
  prev_throughput : option float;
  fallback_attempted : bool;
  current : float;
  calls : list (list string)
}.

Inductive flow : Type := Continue | Break.

(** The command line of a probe at bandwidth string [bw]. *)
Definition probe_cmd (args : Args.t) (bw : string) : list string :=
  iperf_cmd (Args.server args) (Args.port args) (Args.direction args)
    (Args.duration args) (Args.parallel args) bw.

(** ** The ramp controller *)

Section Controller.

Variable args : Args.t.
Variable run : subprocess.
Variables start_bps step_bps max_bps : float.

(** The call [run_iperf(args.server, ..., bw_str, args.timeout)]. *)
Definition probe (calls : list (list string)) (bw_str : string)
    : iperf_result * list (list string) :=
  run_iperf run calls (Args.server args) (Args.port args) (Args.direction args)
    (Args.duration args) (Args.parallel args) bw_str (Args.timeout args).

(** [prev_throughput * (1 - args.drop_threshold / 100.0)] *)
Definition drop_floor (prev : float) : float :=
  (prev * (1 - Args.drop_threshold args / 100))%float.

(** The three checks of a ramp step (lines 141-151): each one that fires
    clears [ok] and assigns [stop_reason]. *)
Definition ramp_check (s : udp_stats) (prev : option float) (reason : string)
    : bool * string :=
  let '(ok1, r1) :=
    match loss_percent s with
    | Some loss =>
        if (Args.loss_threshold args <? loss)%float then (false, "loss_threshold")
        else (true, reason)
    | None => (true, reason)
    end in
  let '(ok2, r2) :=
    match jitter_ms s with
    | Some jitter =>
        if (Args.jitter_threshold args <? jitter)%float then (false, "jitter_threshold")
        else (ok1, r1)
    | None => (ok1, r1)
    end in
  match prev, throughput_bps s with
  | Some p, Some throughput =>
      if (throughput <? drop_floor p)%float then (false, "throughput_drop") else (ok2, r2)
  | _, _ => (ok2, r2)
  end.

(** The same checks in the confirm and step-down probes (lines 186-193 and
    221-228), which only compute the flag. *)
Definition fallback_check (s : udp_stats) (prev : option float) : bool :=
  let ok1 :=
    match loss_percent s with
    | Some loss => if (Args.loss_threshold args <? loss)%float then false else true
    | None => true
    end in
  let ok2 :=
    match jitter_ms s with
    | Some jitter => if (Args.jitter_threshold args <? jitter)%float then false else ok1
    | None => ok1
    end in
  match throughput_bps s, prev with
  | Some throughput, Some p => if (throughput <? drop_floor p)%float then false else ok2
  | _, _ => ok2
  end.

(** [max(a, b)] of Python: the first argument unless the second is larger. *)
Definition py_max (a b : float) : float := if (a <? b)%float then b else a.

Definition with_step (st : session) (rec : step_record) (c : list (list string))
    : session :=
  {| steps := steps st ++ [rec]; last_ok := last_ok st; stop_reason := stop_reason st;
     prev_throughput := prev_throughput st; fallback_attempted := fallback_attempted st;
     current := current st; calls := c |}.

Definition with_calls (st : session) (c : list (list string)) : session :=
  {| steps := steps st; last_ok := last_ok st; stop_reason := stop_reason st;
     prev_throughput := prev_throughput st; fallback_attempted := fallback_attempted st;
     current := current st; calls := c |}.

Definition adopt (st : session) (rec : step_record) (suffix : string) : session :=
  {| steps := steps st; last_ok := Some rec; stop_reason := stop_reason st ++ suffix;
     prev_throughput := prev_throughput st; fallback_attempted := fallback_attempted st;
     current := current st; calls := calls st |}.

(** Lines 202-234: step down once when the confirm did not pass.  [lok] is
    [last_ok], which is set on this path. *)
Definition step_down (st : session) (lok : step_record) : session :=
  let down := py_max start_bps (target_bps lok - step_bps)%float in
  if (down <? target_bps lok)%float then
    let bw_str := bps_to_str down in
    let '(retry, c) := probe (calls st) bw_str in
    match retry with
    | IperfData data cmd_ =>
        let s := extract_udp_stats data in
        let ok_retry := fallback_check s (prev_throughput st) in
        let retry_step :=
          {| target_bps := down; target_str := bw_str; ok := ok_retry; error := None;
             cmd := Some cmd_; stderr := None; stats := Some s;
             confirm := false; fallback := true |} in
        let st1 := with_step st retry_step c in
        if ok_retry then adopt st1 retry_step "_fallback_stepdown" else st1
    | IperfError _ _ _ => with_calls st c
    end
  else st.

(** Lines 165-234: the fallback, entered with [fallback_attempted] unset. *)
Definition fallback_protocol (st : session) (lok : step_record) : session :=
  let st0 :=
    {| steps := steps st; last_ok := last_ok st; stop_reason := stop_reason st;
       prev_throughput := prev_throughput st; fallback_attempted := true;
       current := current st; calls := calls st |} in
  let bw_str := bps_to_str (target_bps lok) in
  let '(confirm_res, c) := probe (calls st0) bw_str in
  match confirm_res with
  | IperfData data cmd_ =>
      let s := extract_udp_stats data in
      let ok_confirm := fallback_check s (prev_throughput st0) in
      let confirm_step :=
        {| target_bps := target_bps lok; target_str := bw_str; ok := ok_confirm;
           error := None; cmd := Some cmd_; stderr := None; stats := Some s;
           confirm := true; fallback := false |} in
      let st1 := with_step st0 confirm_step c in
      if ok_confirm then adopt st1 confirm_step "_fallback_confirmed"
      else step_down st1 lok
  | IperfError _ _ _ => step_down (with_calls st0 c) lok
  end.

(** One turn of the [while] loop (lines 117-236). *)
Definition loop_body (st : session) : session * flow :=
  let bw_str := bps_to_str (current st) in
  let '(result, c) := probe (calls st) bw_str in
  match result with
  | IperfError e cmd_ stderr_ =>
      let step :=
        {| target_bps := current st; target_str := bw_str; ok := false; error := Some e;
           cmd := Some cmd_; stderr := stderr_; stats := None;
           confirm := false; fallback := false |} in
      ({| steps := steps st ++ [step]; last_ok := last_ok st; stop_reason := e;
          prev_throughput := prev_throughput st;
          fallback_attempted := fallback_attempted st;
          current := current st; calls := c |}, Break)
  | IperfData data cmd_ =>
      let s := extract_udp_stats data in
      let throughput := throughput_bps s in
      let '(ok_, reason) := ramp_check s (prev_throughput st) (stop_reason st) in
      let step :=
        {| target_bps := current st; target_str := bw_str; ok := ok_; error := None;
           cmd := Some cmd_; stderr := None; stats := Some s;
           confirm := false; fallback := false |} in
      if ok_ then
        ({| steps := steps st ++ [step]; last_ok := Some step; stop_reason := reason;
            prev_throughput :=
              match throughput with Some t => Some t | None => prev_throughput st end;
            fallback_attempted := fallback_attempted st;
            current := (current st + step_bps)%float; calls := c |}, Continue)
      else
        let st1 :=
          {| steps := steps st ++ [step]; last_ok := last_ok st; stop_reason := reason;
             prev_throughput := prev_throughput st;
             fallback_attempted := fallback_attempted st;
             current := current st; calls := c |} in
        match last_ok st with
        | None => (st1, Break)
        | Some lok =>
            if negb (fallback_attempted st) then (fallback_protocol st1 lok, Break)
            else (st1, Break)
        end
  end.

(** [while current <= max_bps + 1], with fuel for the number of turns. *)
Definition loop_cond (st : session) : bool := (current st <=? max_bps + 1)%float.

Fixpoint while_loop (fuel : nat) (st : session) : option session :=
  match fuel with
  | O => None
  | S f =>
      if loop_cond st then
        match loop_body st with
        | (st', Break) => Some st'
        | (st', Continue) => while_loop f st'
        end
      else Some st
  end.

(** Lines 109-115. *)
Definition initial : session :=
  {| steps := []; last_ok := None; stop_reason := "max_reached"; prev_throughput := None;
     fallback_attempted := false; current := start_bps; calls := [] |}.

Definition run_session (fuel : nat) : option session := while_loop fuel initial.

(** The record of an accepted or rejected ramp step. *)
Definition ramp_step (st : session) (data : report) (c : string) : step_record :=
  {| target_bps := current st; target_str := bps_to_str (current st);
     ok := fallback_check (extract_udp_stats data) (prev_throughput st);
     error := None; cmd := Some c; stderr := None;
     stats := Some (extract_udp_stats data); confirm := false; fallback := false |}.

(** The record of a failed ramp step. *)
Definition error_step (st : session) (e c : string) (se : option string) : step_record :=
  {| target_bps := current st; target_str := bps_to_str (current st); ok := false;
     error := Some e; cmd := Some c; stderr := se; stats := None;
     confirm := false; fallback := false |}.

(** The session after a rejected ramp step and before the fallback. *)
Definition rejected (st : session) (data : report) (c : string)
    (cs : list (list string)) : session :=
  {| steps := steps st ++ [ramp_step st data c]; last_ok := last_ok st;
     stop_reason := snd (ramp_check (extract_udp_stats data) (prev_throughput st)
                           (stop_reason st));
     prev_throughput := prev_throughput st;
     fallback_attempted := fallback_attempted st;
     current := current st; calls := cs |}.

(** The states at the head of the loop. *)
Inductive reachable : session -> Prop :=
  | reach_initial : reachable initial
  | reach_turn st st' :
      reachable st -> loop_cond st = true -> loop_body st = (st', Continue) -> reachable st'.

End Controller.

(** ** [main]: arguments, session, output *)

Record output : Type := {
  o_meta : gmap string Args.json;
  o_steps : list step_record;
  o_selected : option step_record;
  o_stop_reason : string
}.

(** How [main] ends: [SystemExit] on a bad bandwidth, a [TypeError] when the
    metadata is JSON but not an object, or the object dumped to [args.out]. *)
Inductive main_result : Type :=
  | SystemExit (msg : string)
  | TypeError
  | Written (path : string) (o : output).

(** The [meta] entry of the output (lines 239-252): the caller's dictionary,
    then the controller's keys on top of it. *)
Definition build_meta (args : Args.t) (meta : gmap string Args.json)
    (timestamp : string) (start_bps step_bps max_bps : float) : gmap string Args.json :=
  <["max_bps" := Args.JNum max_bps]>
  (<["step_bps" := Args.JNum step_bps]>
  (<["start_bps" := Args.JNum start_bps]>
  (<["drop_threshold" := Args.JNum (Args.drop_threshold args)]>
  (<["jitter_threshold" := Args.JNum (Args.jitter_threshold args)]>
  (<["loss_threshold" := Args.JNum (Args.loss_threshold args)]>
  (<["adaptive" := Args.JBool true]>
  (<["timestamp" := Args.JStr timestamp]>
  (<["direction" := Args.JStr (Args.direction args)]>
  (<["protocol" := Args.JStr "udp"]>
  (<["tool" := Args.JStr "iperf3"]> meta)))))))))).

(** The keys the controller writes. *)
Definition fixed_fields : list string :=
  ["tool"; "protocol"; "direction"; "timestamp"; "adaptive"; "loss_threshold";
   "jitter_threshold"; "drop_threshold"; "start_bps"; "step_bps"; "max_bps"].

(** [main].  [timestamp] is the reading of the clock at line 244; [None] is
    a loop that outlives the fuel. *)
Definition main (fuel : nat) (args : Args.t) (run : subprocess) (timestamp : string)
    : option main_result :=
  match parse_bps (Some (Args.start args)), parse_bps (Some (Args.step args)),
        parse_bps (Some (Args.max_bps args)) with
  | Some start_bps, Some step_bps, Some max_bps =>
      match run_session args run start_bps step_bps max_bps fuel with
      | None => None
      | Some st =>
          let meta :=
            match Args.meta args with
            | Args.MetaInvalid => Some ∅
            | Args.MetaObject m => Some m
            | Args.MetaOther _ => None
            end in
          match meta with
          | None => Some TypeError
          | Some m =>
              Some (Written (Args.out args)
                {| o_meta := build_meta args m timestamp start_bps step_bps max_bps;
                   o_steps := steps st;
                   o_selected := last_ok st;
                   o_stop_reason := stop_reason st |})
          end
      end
  | _, _, _ => Some (SystemExit "Invalid bandwidth values")
  end.

(** ** Fixtures: reports and oracles for the scenarios *)

Module Fixture.

Definition opt_entry (k : string) (v : option float) (m : gmap string float)
    : gmap string float :=
  match v with Some x => <[k := x]> m | None => m end.

(** A report whose [end.sum] carries the given readings. *)
Definition report_of (throughput jitter loss : option float) : report :=
  {[ "end" := {[ "sum" :=
       opt_entry "bits_per_second" throughput
         (opt_entry "jitter_ms" jitter (opt_entry "lost_percent" loss ∅)) ]} ]}.

Definition measured (throughput jitter loss : option float) : completed :=
  CompletedProcess 0 (Some (report_of throughput jitter loss)) "".

(** An oracle that replays a list of results by probe number and times out
    afterwards. *)
Definition replay (l : list completed) : subprocess :=
  fun n _ _ => nth n l TimeoutExpired.

Definition always (c : completed) : subprocess := fun _ _ _ => c.

Definition args0 (start step max : string) : Args.t :=
  {| Args.server := "10.0.0.1"; Args.port := 5201; Args.direction := "uplink";
     Args.duration := 15; Args.parallel := 4;
     Args.start := start; Args.step := step; Args.max_bps := max;
     Args.loss_threshold := 1; Args.jitter_threshold := 5;
     Args.drop_threshold := 5; Args.timeout := 45; Args.out := "out.json";
     Args.meta := Args.MetaInvalid |}.

(** Jitter 1 ms and loss 0.1%: the double nearest to 0.1. *)
Definition good : completed := measured None (Some 1%float) (Some 0x1.999999999999ap-4%float).
Definition lossy : completed := measured None (Some 1%float) (Some 2%float).

(** Loss 2% and jitter 10 ms: both above the default thresholds. *)
Definition noisy : completed := measured None (Some 10%float) (Some 2%float).

(** [n] Gbps. *)
Definition G (n : float) : float := (n * 1e9)%float.

End Fixture.

(** ** Predicates of the statements *)

(** The error strings [run_iperf] can produce. *)
Definition error_kind (e : string) : Prop :=
  e = "timeout" \/ e = "json_parse" \/ exists rc : Z, rc <> 0%Z /\ e = "exit_" +:+ PyStr.str_Z rc.

(** A probe result passes: it carries data and the data pass the checks
    against the baseline [prev]. *)
Definition accepted (args : Args.t) (prev : option float) (res : iperf_result) : bool :=
  match res with
  | IperfData data _ => fallback_check args (extract_udp_stats data) prev
  | IperfError _ _ _ => false
  end.

Definition normal_role (s : step_record) : bool := negb (confirm s) && negb (fallback s).

Definition count_role (f : step_record -> bool) (l : list step_record) : nat :=
  length (List.filter f l).

(** The reasons a threshold check assigns. *)
Definition threshold_reason (r : string) : Prop :=
  r = "loss_threshold" \/ r = "jitter_threshold" \/ r = "throughput_drop".

(** The stop reasons of the code: the initial one, a threshold reason with or
    without a fallback suffix, or the error string of a failed ramp probe. *)
Definition stop_reason_form (r : string) : Prop :=
  r = "max_reached" \/
  (exists base, threshold_reason base /\
     (r = base \/ r = base +:+ "_fallback_confirmed" \/ r = base +:+ "_fallback_stepdown")) \/
  error_kind r.

(** The three checks, each on its own. *)
Definition loss_violated (args : Args.t) (s : udp_stats) : bool :=
  match loss_percent s with
  | Some l => (Args.loss_threshold args <? l)%float
  | None => false
  end.

Definition jitter_violated (args : Args.t) (s : udp_stats) : bool :=
  match jitter_ms s with
  | Some j => (Args.jitter_threshold args <? j)%float
  | None => false
  end.

Definition drop_violated (args : Args.t) (s : udp_stats) (prev : option float) : bool :=
  match prev, throughput_bps s with
  | Some p, Some t => (t <? drop_floor args p)%float
  | _, _ => false
  end.

(** The reason of the last check that fires, in the order loss, jitter,
    throughput drop. *)
Definition last_violation (args : Args.t) (s : udp_stats) (prev : option float) : string :=
  if drop_violated args s prev then "throughput_drop"
  else if jitter_violated args s then "jitter_threshold"
  else "loss_threshold".

(** A probe result is an error dictionary. *)
Definition is_error (res : iperf_result) : bool :=
  match res with
  | IperfError _ _ _ => true
  | IperfData _ _ => false
  end.

(** The selection is one of the recorded steps, and an accepted one. *)
Definition selected_ok (st : session) : Prop :=
  forall s, last_ok st = Some s -> In s (steps st) /\ ok s = true.

(** What holds at every head of the loop: the ramp so far was accepted
    throughout. *)
Record ramping (st : session) : Prop := {
  ramping_flag : fallback_attempted st = false;
  ramping_reason : stop_reason st = "max_reached";
  ramping_steps :
    Forall (fun s => ok s = true /\ confirm s = false /\ fallback s = false) (steps st);
  ramping_last : last_ok st = last (steps st);
  ramping_calls : length (calls st) = length (steps st)
}.

(** The stop reasons the specification lists. *)
Definition listed_stop_reasons : list string :=
  ["max_reached";
   "loss_threshold"; "loss_threshold_fallback_confirmed"; "loss_threshold_fallback_stepdown";
   "jitter_threshold"; "jitter_threshold_fallback_confirmed";
   "jitter_threshold_fallback_stepdown";
   "throughput_drop"; "throughput_drop_fallback_confirmed";
   "throughput_drop_fallback_stepdown";
   "timeout"; "process_error"; "parse_error"].

(** The values the specification names for the round trip. *)
Definition representative_values : list float :=
  [2000000000; 1500000; 1500; 250]%float.

(** The record of a measured confirm probe at the target of [lok]. *)
Definition confirm_record (args : Args.t) (lok : step_record) (prev : option float)
    (data : report) (c : string) : step_record :=
  {| target_bps := target_bps lok; target_str := bps_to_str (target_bps lok);
     ok := fallback_check args (extract_udp_stats data) prev;
     error := None; cmd := Some c; stderr := None;
     stats := Some (extract_udp_stats data); confirm := true; fallback := false |}.

(** The record of a measured step-down probe at [down]. *)
Definition retry_record (args : Args.t) (down : float) (prev : option float)
    (data : report) (c : string) : step_record :=
  {| target_bps := down; target_str := bps_to_str down;
     ok := fallback_check args (extract_udp_stats data) prev;
     error := None; cmd := Some c; stderr := None;
     stats := Some (extract_udp_stats data); confirm := false; fallback := true |}.

(** The session once [fallback_attempted] is set. *)
Definition marked (st : session) : session :=
  {| steps := steps st; last_ok := last_ok st; stop_reason := stop_reason st;
     prev_throughput := prev_throughput st; fallback_attempted := true;
     current := current st; calls := calls st |}.

(** The target of the [k]-th ramp step: [current] after [k] turns of
    [current += step_bps], each addition rounded as the code rounds it. *)
Fixpoint ramp_target (start_bps step_bps : float) (k : nat) : float :=
  match k with
  | O => start_bps
  | S j => (ramp_target start_bps step_bps j + step_bps)%float
  end.


(** The ramp after [k] accepted steps. *)
Record ramp_so_far (start_bps step_bps max_bps : float) (k : nat) (st : session)
    : Prop := {
  ramp_length : length (steps st) = k;
  ramp_current : current st = ramp_target start_bps step_bps k;
  ramp_targets :
    forall j s, steps st !! j = Some s ->
                target_bps s = ramp_target start_bps step_bps j /\
                (target_bps s <=? max_bps + 1)%float = true
}.

(** ** Predicates of the further properties *)

(** What the fallback adds to the steps: a confirm record at the target of
    [lok], or a fallback record at a strictly lower target that is not below
    the start; never a record of a failed probe. *)
Definition fallback_record (start_bps step_bps : float) (lok s : step_record) : Prop :=
  error s = None /\
  ((confirm s = true /\ fallback s = false /\ target_bps s = target_bps lok) \/
   (confirm s = false /\ fallback s = true /\
    target_bps s = py_max start_bps (target_bps lok - step_bps)%float /\
    (target_bps s <? target_bps lok)%float = true)).

(** The latest accepted record of a list of steps. *)
Definition last_accepted (l : list step_record) : option step_record :=
  last (List.filter ok l).

Definition selects_latest (st : session) : Prop := last_ok st = last_accepted (steps st).

(** The selection, when there is one, is a record of the ramp. *)
Definition selection_is_normal (st : session) : Prop :=
  forall s, last_ok st = Some s -> normal_role s = true.

(** The stop reasons with a fallback suffix. *)
Definition confirmed_reason (r : string) : Prop :=
  exists base, threshold_reason base /\ r = base +:+ "_fallback_confirmed".

Definition stepdown_reason (r : string) : Prop :=
  exists base, threshold_reason base /\ r = base +:+ "_fallback_stepdown".

(** The throughput of the latest step that reported one. *)
Definition latest_throughput (l : list step_record) : option float :=
  fold_left
    (fun acc s =>
       match stats s with
       | Some u => match throughput_bps u with Some t => Some t | None => acc end
       | None => acc
       end) l None.

(** The record of the lookups in one [sum] object. *)
Definition stats_of (m : gmap string float) : udp_stats :=
  {| throughput_bps := m !! "bits_per_second"; jitter_ms := m !! "jitter_ms";
     loss_percent := m !! "lost_percent"; packets := m !! "packets" |}.

(** The record names the bandwidth string of its target and the command line
    that was run with it, and that command line is in the probe log. *)
Definition record_consistent (args : Args.t) (log : list (list string))
    (s : step_record) : Prop :=
  target_str s = bps_to_str (target_bps s) /\
  cmd s = Some (PyStr.join " " (probe_cmd args (target_str s))) /\
  In (probe_cmd args (target_str s)) log.

Definition records_consistent (args : Args.t) (st : session) : Prop :=
  Forall (record_consistent args (calls st)) (steps st).

(** A string of white space only. *)
Fixpoint blank (s : string) : bool :=
  match s with
  | EmptyString => true
  | String c r => PyStr.is_space c && blank r
  end.

(** ** The report helpers of [analyze_results.py] and [report_results.py] *)

Module Analyze.

(** The loop of [human_bps] over its table of units. *)
Fixpoint human_bps_units (units : list (float * string)) (value : float) : string :=
  match units with
  | [] => PyFloat.format_f 3 value ++ " bps"
  | (scale, label) :: rest =>
      if (scale <=? value)%float then PyFloat.format_f 3 (value / scale)%float ++ " " ++ label
      else human_bps_units rest value
  end.

(** [human_bps(value)] *)
Definition human_bps (value : option float) : string :=
  match value with
  | None => "n/a"
  | Some v =>
      human_bps_units [(1e9%float, "Gbps"); (1e6%float, "Mbps"); (1e3%float, "Kbps")] v
  end.

End Analyze.

Module Report.

(** [fmt_bps(v)]; [float(v)] is the identity on a double. *)
Definition fmt_bps (v : option float) : string :=
  match v with
  | None => "n/a"
  | Some v =>
      if (1e9 <=? v)%float then PyFloat.format_f 3 (v / 1e9)%float ++ " Gbps"
      else if (1e6 <=? v)%float then PyFloat.format_f 3 (v / 1e6)%float ++ " Mbps"
      else if (1e3 <=? v)%float then PyFloat.format_f 3 (v / 1e3)%float ++ " Kbps"
      else PyFloat.format_f 3 v ++ " bps"
  end.

End Report.

(** ** Test names of [update_tests_from_public_list.py] *)

Module PublicList.

(** The class [[a-z0-9]]. *)
Definition is_slug_char (c : ascii) : bool :=
  let n := nat_of_ascii c in
  (((97 <=? n) && (n <=? 122)) || ((48 <=? n) && (n <=? 57)))%nat.

(** [re.sub(r"[^a-z0-9]+", "_", s)]: every maximal run of characters outside
    the class becomes one underscore; [in_run] tells that the run of the
    previous character goes on. *)
Fixpoint sub_runs (in_run : bool) (s : string) : string :=
  match s with
  | EmptyString => EmptyString
  | String c r =>
      if is_slug_char c then String c (sub_runs false r)
      else if in_run then sub_runs true r
      else String "_" (sub_runs true r)
  end.

(** [s.strip("_")] *)
Fixpoint lstrip_us (s : string) : string :=
  match s with
  | String c r => if Ascii.eqb c "_" then lstrip_us r else s
  | EmptyString => EmptyString
  end.

Fixpoint rstrip_us (s : string) : string :=
  match s with
  | EmptyString => EmptyString
  | String c r =>
      match rstrip_us r with
      | EmptyString => if Ascii.eqb c "_" then EmptyString else String c EmptyString
      | r' => String c r'
      end
  end.

Definition strip_us (s : string) : string := rstrip_us (lstrip_us s).

(** [slugify(text)] *)
Definition slugify (text : string) : string :=
  strip_us (sub_runs false (PyStr.lower text)).

(** [filter(None, [x])]: [None] and the empty string are dropped. *)
Definition truthy (x : option string) : list string :=
  match x with
  | Some EmptyString | None => []
  | Some s => [s]
  end.

(** The [base_name] of a record in [build_tests] (lines 202-204). *)
Definition base_name (country site provider : option string) (host : string) : string :=
  match slugify (PyStr.join "_" (truthy country ++ truthy site ++ truthy provider
                                   ++ truthy (Some host))) with
  | EmptyString =>
      match slugify host with
      | EmptyString => "iperf"
      | h => h
      end
  | b => b
  end.

End PublicList.

(** A well-formed slug after a state: only characters of the class and
    single underscores between them; [after_us] tells that an underscore may
    not come next, as at the start and after an underscore. *)
Fixpoint slug_from (after_us : bool) (s : string) : bool :=
  match s with
  | EmptyString => negb after_us
  | String c r =>
      if PublicList.is_slug_char c then slug_from false r
      else Ascii.eqb c "_" && negb after_us && slug_from true r
  end.

Definition slug (s : string) : bool :=
  match s with
  | EmptyString => true
  | _ => slug_from true s
  end.

(** The same without the condition on the end. *)
Fixpoint slug_run (after_us : bool) (s : string) : bool :=
  match s with
  | EmptyString => true
  | String c r =>
      if PublicList.is_slug_char c then slug_run false r
      else Ascii.eqb c "_" && negb after_us && slug_run true r
  end.

Fixpoint has_slug_char (s : string) : bool :=
  match s with
  | EmptyString => false
  | String c r => PublicList.is_slug_char c || has_slug_char r
  end.

(** ** Reading the probe log and the loop *)

Section LoopFacts.

Variable args : Args.t.
Variable run : subprocess.
Variables start_bps step_bps max_bps : float.

#[local] Abbreviation probe' := (probe args run).
#[local] Abbreviation body := (loop_body args run start_bps step_bps).
#[local] Abbreviation loop := (while_loop args run start_bps step_bps max_bps).
#[local] Abbreviation cond := (loop_cond max_bps).
#[local] Abbreviation reachable' := (reachable args run start_bps step_bps max_bps).

Lemma probe_log calls bw : snd (probe' calls bw) = calls ++ [probe_cmd args bw].
Proof.
  unfold probe, run_iperf, probe_cmd.
  repeat case_match; reflexivity.
Qed.

Lemma probe_log_eq calls bw res cs :
  probe' calls bw = (res, cs) -> cs = calls ++ [probe_cmd args bw].
Proof. intros H. rewrite <- (probe_log calls bw), H. reflexivity. Qed.

Lemma probe_error_kind calls bw e c se cs :
  probe' calls bw = (IperfError e c se, cs) -> error_kind e.
Proof.
  unfold probe, run_iperf, error_kind. intros H.
  repeat case_match; simplify_eq; eauto.
  right; right. eexists; split; [|reflexivity].
  intros ->. discriminate.
Qed.

(** The flag of a ramp step is the one the fallback probes compute. *)
Lemma ramp_check_flag s prev r : fst (ramp_check args s prev r) = fallback_check args s prev.
Proof.
  unfold ramp_check, fallback_check.
  destruct (loss_percent s), (jitter_ms s), prev, (throughput_bps s);
    repeat case_match; simplify_eq/=; reflexivity.
Qed.

(** A step that passes leaves the stop reason as it was. *)
Lemma ramp_check_pass s prev r :
  fallback_check args s prev = true -> snd (ramp_check args s prev r) = r.
Proof.
  unfold ramp_check, fallback_check.
  destruct (loss_percent s), (jitter_ms s), prev, (throughput_bps s);
    repeat case_match; simplify_eq/=; congruence.
Qed.

Lemma ramp_check_pair s prev r :
  ramp_check args s prev r =
    (fallback_check args s prev, snd (ramp_check args s prev r)).
Proof. rewrite <- (ramp_check_flag s prev r). apply surjective_pairing. Qed.

Lemma body_error st e c se cs :
  probe' (calls st) (bps_to_str (current st)) = (IperfError e c se, cs) ->
  body st =
    ({| steps := steps st ++ [error_step st e c se]; last_ok := last_ok st;
        stop_reason := e; prev_throughput := prev_throughput st;
        fallback_attempted := fallback_attempted st;
        current := current st; calls := cs |}, Break).
Proof. intros H. unfold loop_body. rewrite H. reflexivity. Qed.

Lemma body_accept st data c cs :
  probe' (calls st) (bps_to_str (current st)) = (IperfData data c, cs) ->
  fallback_check args (extract_udp_stats data) (prev_throughput st) = true ->
  body st =
    ({| steps := steps st ++ [ramp_step args st data c]; last_ok := Some (ramp_step args st data c);
        stop_reason := stop_reason st;
        prev_throughput :=
          match throughput_bps (extract_udp_stats data) with
          | Some t => Some t
          | None => prev_throughput st
          end;
        fallback_attempted := fallback_attempted st;
        current := (current st + step_bps)%float; calls := cs |}, Continue).
Proof.
  intros H Hok. unfold loop_body. rewrite H. cbv beta iota zeta.
  rewrite ramp_check_pair, Hok.
  rewrite (ramp_check_pass _ _ _ Hok). unfold ramp_step. rewrite Hok. reflexivity.
Qed.

Lemma body_reject st data c cs :
  probe' (calls st) (bps_to_str (current st)) = (IperfData data c, cs) ->
  fallback_check args (extract_udp_stats data) (prev_throughput st) = false ->
  body st =
    (match last_ok st with
     | None => rejected args st data c cs
     | Some lok =>
         if negb (fallback_attempted st)
         then fallback_protocol args run start_bps step_bps (rejected args st data c cs) lok
         else rejected args st data c cs
     end, Break).
Proof.
  intros H Hok. unfold loop_body. rewrite H. cbv beta iota zeta.
  rewrite ramp_check_pair, Hok.
  unfold rejected, ramp_step. rewrite Hok.
  destruct (last_ok st); [destruct (fallback_attempted st)|]; reflexivity.
Qed.

(** The three ways a turn of the loop can go. *)
Lemma body_cases st :
  (exists e c se cs,
      probe' (calls st) (bps_to_str (current st)) = (IperfError e c se, cs)) \/
  (exists data c cs,
      probe' (calls st) (bps_to_str (current st)) = (IperfData data c, cs) /\
      fallback_check args (extract_udp_stats data) (prev_throughput st) = true) \/
  (exists data c cs,
      probe' (calls st) (bps_to_str (current st)) = (IperfData data c, cs) /\
      fallback_check args (extract_udp_stats data) (prev_throughput st) = false).
Proof.
  destruct (probe' (calls st) (bps_to_str (current st))) as [[e c se|data c] cs] eqn:H.
  - left. eauto.
  - destruct (fallback_check args (extract_udp_stats data) (prev_throughput st)) eqn:Hc;
      [right; left | right; right]; eauto.
Qed.

Lemma body_continue st st' :
  body st = (st', Continue) ->
  exists data c cs,
    probe' (calls st) (bps_to_str (current st)) = (IperfData data c, cs) /\
    fallback_check args (extract_udp_stats data) (prev_throughput st) = true.
Proof.
  intros Hb.
  destruct (body_cases st) as [(e & c & se & cs & H)|[(d & c & cs & H & Hc)|(d & c & cs & H & Hc)]].
  - rewrite (body_error _ _ _ _ _ H) in Hb. discriminate.
  - eauto.
  - rewrite (body_reject _ _ _ _ H Hc) in Hb. discriminate.
Qed.

Lemma loop_break fuel st st' :
  cond st = true -> body st = (st', Break) -> loop (S fuel) st = Some st'.
Proof. intros Hc Hb. simpl. rewrite Hc, Hb. reflexivity. Qed.

(** A finished loop stopped at a reachable head: by the bound or by a
    [break]. *)
Lemma loop_end fuel st out :
  reachable' st -> loop fuel st = Some out ->
  (reachable' out /\ cond out = false) \/
  (exists st', reachable' st' /\ cond st' = true /\ body st' = (out, Break)).
Proof.
  revert st. induction fuel as [|fuel IH]; intros st Hr H; [discriminate|].
  simpl in H. destruct (cond st) eqn:Hc.
  - destruct (body st) as [st' []] eqn:Hb.
    + apply (IH st'); [econstructor; eauto | exact H].
    + simplify_eq. right. eauto.
  - simplify_eq. left. auto.
Qed.

End LoopFacts.

(** ** Invariants of the session *)

Section Invariants.

Variable args : Args.t.
Variable run : subprocess.
Variables start_bps step_bps max_bps : float.

#[local] Abbreviation probe' := (probe args run).
#[local] Abbreviation body := (loop_body args run start_bps step_bps).
#[local] Abbreviation loop := (while_loop args run start_bps step_bps max_bps).
#[local] Abbreviation cond := (loop_cond max_bps).
#[local] Abbreviation reach := (reachable args run start_bps step_bps max_bps).
#[local] Abbreviation fallback_protocol' := (fallback_protocol args run start_bps step_bps).
#[local] Abbreviation step_down' := (step_down args run start_bps step_bps).

Lemma reachable_ramping st : reach st -> ramping st.
Proof.
  induction 1 as [|st st' Hr IH Hc Hb].
  - split; simpl; auto.
  - destruct (body_continue _ _ _ _ _ _ Hb) as (data & c & cs & Hp & Hok).
    rewrite (body_accept _ _ _ _ _ _ _ _ Hp Hok) in Hb. simplify_eq.
    destruct IH as [Hf Hs Hst Hl Hcs]. split; simpl; auto.
    + apply Forall_app. split; [exact Hst|].
      constructor; [|constructor]. simpl. auto.
    + rewrite last_snoc. reflexivity.
    + rewrite (probe_log_eq _ _ _ _ _ _ Hp). rewrite !length_app. simpl. lia.
Qed.

Lemma ramp_check_fail s prev r :
  fallback_check args s prev = false ->
  threshold_reason (snd (ramp_check args s prev r)).
Proof.
  unfold ramp_check, fallback_check, threshold_reason.
  destruct (loss_percent s), (jitter_ms s), prev, (throughput_bps s);
    repeat case_match; simplify_eq/=; auto; discriminate.
Qed.

(** The stop reason after the step-down and after the whole fallback. *)
Lemma step_down_reason st lok :
  stop_reason (step_down' st lok) = stop_reason st \/
  stop_reason (step_down' st lok) = stop_reason st +:+ "_fallback_stepdown".
Proof. unfold step_down. repeat case_match; simpl; auto. Qed.

Lemma fallback_reason st lok :
  stop_reason (fallback_protocol' st lok) = stop_reason st \/
  stop_reason (fallback_protocol' st lok) = stop_reason st +:+ "_fallback_confirmed" \/
  stop_reason (fallback_protocol' st lok) = stop_reason st +:+ "_fallback_stepdown".
Proof.
  unfold fallback_protocol.
  repeat case_match; simpl; auto;
    match goal with
    | |- context [step_down' ?s lok] =>
        destruct (step_down_reason s lok) as [->| ->]; simpl; auto
    end.
Qed.

(** The selection stays a recorded, accepted step. *)
Lemma selected_with_step st x c : selected_ok st -> selected_ok (with_step st x c).
Proof.
  intros H s Hs. simpl in *. destruct (H s Hs).
  split; [apply in_or_app; left|]; assumption.
Qed.

Lemma selected_with_calls st c : selected_ok st -> selected_ok (with_calls st c).
Proof. intros H s Hs. exact (H s Hs). Qed.

Lemma selected_marked st f : 
  selected_ok st ->
  selected_ok {| steps := steps st; last_ok := last_ok st; stop_reason := stop_reason st;
                 prev_throughput := prev_throughput st; fallback_attempted := f;
                 current := current st; calls := calls st |}.
Proof. intros H s Hs. exact (H s Hs). Qed.

Lemma selected_adopt st x c sfx :
  ok x = true -> selected_ok (adopt (with_step st x c) x sfx).
Proof.
  intros Hx s Hs. simpl in *. simplify_eq.
  split; [apply in_or_app; right; left; reflexivity | assumption].
Qed.

Lemma step_down_selected st lok : selected_ok st -> selected_ok (step_down' st lok).
Proof.
  unfold step_down. intros H.
  repeat case_match;
    auto using selected_with_step, selected_with_calls, selected_adopt.
Qed.

Lemma fallback_selected st lok : selected_ok st -> selected_ok (fallback_protocol' st lok).
Proof.
  unfold fallback_protocol. intros H.
  repeat case_match;
    auto 6 using step_down_selected, selected_with_step, selected_with_calls,
      selected_adopt, selected_marked.
Qed.

Lemma body_selected st : selected_ok st -> selected_ok (fst (body st)).
Proof.
  intros H.
  assert (Hgrow : forall x r p f cu cs,
    selected_ok {| steps := steps st ++ [x]; last_ok := last_ok st; stop_reason := r;
                   prev_throughput := p; fallback_attempted := f; current := cu;
                   calls := cs |}).
  { intros x r p f cu cs s Hs. simpl in *. destruct (H s Hs).
    split; [apply in_or_app; left|]; assumption. }
  destruct (body_cases args run st)
    as [(e & c & se & cs & Hp)|[(d & c & cs & Hp & Hc)|(d & c & cs & Hp & Hc)]].
  - rewrite (body_error _ _ _ _ _ _ _ _ _ Hp). simpl. apply Hgrow.
  - rewrite (body_accept _ _ _ _ _ _ _ _ Hp Hc). intros s Hs. simpl in *. simplify_eq.
    split; [apply in_or_app; right; left; reflexivity | simpl; congruence].
  - rewrite (body_reject _ _ _ _ _ _ _ _ Hp Hc). simpl.
    assert (Hrej : selected_ok (rejected args st d c cs))
      by (unfold rejected; apply Hgrow).
    destruct (last_ok st); [destruct (negb (fallback_attempted st))|]; auto.
    apply fallback_selected, Hrej.
Qed.

Lemma loop_selected fuel st out :
  selected_ok st -> loop fuel st = Some out -> selected_ok out.
Proof.
  revert st. induction fuel as [|fuel IH]; intros st Hs H; [discriminate|].
  simpl in H. destruct (cond st).
  - pose proof (body_selected st Hs) as Hb.
    destruct (body st) as [st' []]; simpl in Hb.
    + eapply IH; eauto.
    + simplify_eq. exact Hb.
  - simplify_eq. exact Hs.
Qed.

End Invariants.

(** ** From [main] back to the session *)

Lemma main_written fuel args run ts path o :
  main fuel args run ts = Some (Written path o) ->
  exists start_bps step_bps max_bps st m,
    parse_bps (Some (Args.start args)) = Some start_bps /\
    parse_bps (Some (Args.step args)) = Some step_bps /\
    parse_bps (Some (Args.max_bps args)) = Some max_bps /\
    run_session args run start_bps step_bps max_bps fuel = Some st /\
    (Args.meta args = Args.MetaInvalid /\ m = ∅ \/ Args.meta args = Args.MetaObject m) /\
    o_meta o = build_meta args m ts start_bps step_bps max_bps /\
    o_steps o = steps st /\ o_selected o = last_ok st /\ o_stop_reason o = stop_reason st.
Proof.
  unfold main. intros H.
  destruct (parse_bps (Some (Args.start args))) as [a|]; [|discriminate].
  destruct (parse_bps (Some (Args.step args))) as [b|]; [|discriminate].
  destruct (parse_bps (Some (Args.max_bps args))) as [c|]; [|discriminate].
  destruct (run_session args run a b c fuel) as [st|] eqn:Hrun; [|discriminate].
  destruct (Args.meta args) as [|m|v] eqn:Hm; simplify_eq/=.
  - exists a, b, c, st, ∅. intuition auto.
  - exists a, b, c, st, m. intuition auto.
Qed.

(** The stop reason of a finished session. *)
Lemma session_stop_reason args run start_bps step_bps max_bps fuel out :
  run_session args run start_bps step_bps max_bps fuel = Some out ->
  stop_reason_form (stop_reason out).
Proof.
  unfold run_session. intros H.
  destruct (loop_end _ _ _ _ _ _ _ _ (reach_initial _ _ _ _ _) H)
    as [[Hr _]|(st & Hr & Hc & Hb)].
  - left. apply (ramping_reason _ (reachable_ramping _ _ _ _ _ _ Hr)).
  - destruct (body_cases args run st)
      as [(e & c & se & cs & Hp)|[(d & c & cs & Hp & Hk)|(d & c & cs & Hp & Hk)]].
    + rewrite (body_error _ _ _ _ _ _ _ _ _ Hp) in Hb. simplify_eq. simpl.
      right; right. eapply probe_error_kind, Hp.
    + rewrite (body_accept _ _ _ _ _ _ _ _ Hp Hk) in Hb. discriminate.
    + rewrite (body_reject _ _ _ _ _ _ _ _ Hp Hk) in Hb. simplify_eq.
      right; left.
      exists (snd (ramp_check args (extract_udp_stats d) (prev_throughput st) (stop_reason st))).
      split; [apply ramp_check_fail, Hk|].
      destruct (last_ok st) as [lok|]; [destruct (negb (fallback_attempted st))|];
        simpl; auto.
      apply (fallback_reason args run start_bps step_bps (rejected args st d c cs) lok).
Qed.

(** ** The properties of the specification *)

(** C8.  The selection written by [main] is absent or is one of the steps
    written with it, and that step is an accepted one; it is absent in
    particular when no recorded step was accepted. *)
Theorem selected_is_an_accepted_step fuel args run ts path o :
  main fuel args run ts = Some (Written path o) ->
  (o_selected o = None \/
   exists s, o_selected o = Some s /\ In s (o_steps o) /\ ok s = true) /\
  ((forall s, In s (o_steps o) -> ok s = false) -> o_selected o = None).
Proof.
  intros H.
  destruct (main_written _ _ _ _ _ _ H)
    as (a & b & c & st & m & _ & _ & _ & Hrun & _ & _ & Hs & Hsel & _).
  assert (Hok : selected_ok st).
  { eapply loop_selected; [|exact Hrun]. intros s Hs'. discriminate. }
  rewrite Hs, Hsel. split.
  - destruct (last_ok st) as [s|] eqn:Hl; [right|left; reflexivity].
    exists s. destruct (Hok s Hl). auto.
  - intros Hnone. destruct (last_ok st) as [s|] eqn:Hl; [|reflexivity].
    destruct (Hok s Hl) as [Hin Hs']. rewrite (Hnone s Hin) in Hs'. discriminate.
Qed.

Lemma selected_is_an_accepted_step_witness :
  match main 10 (Fixture.args0 "2G" "2G" "10G")
          (Fixture.replay [Fixture.good; Fixture.good; Fixture.lossy; Fixture.good]) "t" with
  | Some (Written _ o) =>
      (o_selected o = None \/
       exists s, o_selected o = Some s /\ In s (o_steps o) /\ ok s = true) /\
      ((forall s, In s (o_steps o) -> ok s = false) -> o_selected o = None)
  | _ => False
  end.
Proof.
  destruct (main 10 (Fixture.args0 "2G" "2G" "10G")
              (Fixture.replay [Fixture.good; Fixture.good; Fixture.lossy; Fixture.good]) "t")
    as [[msg| |path o]|] eqn:H; try (vm_compute in H; discriminate).
  exact (selected_is_an_accepted_step _ _ _ _ _ _ H).
Defined.

(** C4, as the code has it.  The stop reason written by [main] is
    [max_reached], or one of the three threshold reasons alone or followed by
    [_fallback_confirmed] or [_fallback_stepdown], or the error string of the
    failed ramp probe: [timeout], [json_parse] or [exit_<return code>]. *)
Theorem stop_reason_is_one_of_the_forms fuel args run ts path o :
  main fuel args run ts = Some (Written path o) ->
  o_stop_reason o = "max_reached" \/
  (exists base,
      (base = "loss_threshold" \/ base = "jitter_threshold" \/ base = "throughput_drop") /\
      (o_stop_reason o = base \/
       o_stop_reason o = base +:+ "_fallback_confirmed" \/
       o_stop_reason o = base +:+ "_fallback_stepdown")) \/
  o_stop_reason o = "timeout" \/
  o_stop_reason o = "json_parse" \/
  (exists rc : Z, rc <> 0%Z /\ o_stop_reason o = "exit_" +:+ PyStr.str_Z rc).
Proof.
  intros H.
  destruct (main_written _ _ _ _ _ _ H)
    as (a & b & c & st & m & _ & _ & _ & Hrun & _ & _ & _ & _ & Hr).
  rewrite Hr. exact (session_stop_reason _ _ _ _ _ _ _ Hrun).
Qed.

Lemma stop_reason_is_one_of_the_forms_witness :
  match main 10 (Fixture.args0 "2G" "2G" "10G")
          (Fixture.replay [Fixture.good; Fixture.lossy; Fixture.good]) "t" with
  | Some (Written _ o) =>
      o_stop_reason o = "loss_threshold_fallback_confirmed" /\
      (o_stop_reason o = "max_reached" \/
       (exists base,
           (base = "loss_threshold" \/ base = "jitter_threshold" \/
            base = "throughput_drop") /\
           (o_stop_reason o = base \/
            o_stop_reason o = base +:+ "_fallback_confirmed" \/
            o_stop_reason o = base +:+ "_fallback_stepdown")) \/
       o_stop_reason o = "timeout" \/
       o_stop_reason o = "json_parse" \/
       (exists rc : Z, rc <> 0%Z /\ o_stop_reason o = "exit_" +:+ PyStr.str_Z rc))
  | _ => False
  end.
Proof.
  destruct (main 10 (Fixture.args0 "2G" "2G" "10G")
              (Fixture.replay [Fixture.good; Fixture.lossy; Fixture.good]) "t")
    as [[msg| |path o]|] eqn:H; try (vm_compute in H; discriminate).
  split.
  - vm_compute in H. injection H as _ <-. reflexivity.
  - exact (stop_reason_is_one_of_the_forms _ _ _ _ _ _ H).
Defined.

(** C4, as stated, fails: a probe that exits with code 1 ends the session
    with stop reason [exit_1], and an unreadable report with [json_parse];
    neither is in the list of the specification. *)
Lemma stop_reason_outside_the_list :
  (exists o,
      main 10 (Fixture.args0 "2G" "2G" "10G")
        (Fixture.replay [CompletedProcess 1 None "boom"]) "t" = Some (Written "out.json" o) /\
      o_stop_reason o = "exit_1" /\ ~ In (o_stop_reason o) listed_stop_reasons) /\
  (exists o,
      main 10 (Fixture.args0 "2G" "2G" "10G")
        (Fixture.replay [CompletedProcess 0 None ""]) "t" = Some (Written "out.json" o) /\
      o_stop_reason o = "json_parse" /\ ~ In (o_stop_reason o) listed_stop_reasons).
Proof.
  split; eexists; (split; [vm_compute; reflexivity|]); (split; [reflexivity|]);
    simpl; intros Hin; repeat (destruct Hin as [Hin|Hin]; [discriminate|]); exact Hin.
Qed.

(** C10.  In the [meta] object of the output the controller's eleven fields
    carry the controller's values, whatever the caller supplied under those
    keys, and every other key of the caller's metadata is carried through
    with its value (and no other key appears). *)
Theorem meta_controller_fields_override fuel args run ts path o m :
  main fuel args run ts = Some (Written path o) ->
  Args.meta args = Args.MetaObject m ->
  (o_meta o !! "tool" = Some (Args.JStr "iperf3") /\
   o_meta o !! "protocol" = Some (Args.JStr "udp") /\
   o_meta o !! "direction" = Some (Args.JStr (Args.direction args)) /\
   o_meta o !! "timestamp" = Some (Args.JStr ts) /\
   o_meta o !! "adaptive" = Some (Args.JBool true) /\
   o_meta o !! "loss_threshold" = Some (Args.JNum (Args.loss_threshold args)) /\
   o_meta o !! "jitter_threshold" = Some (Args.JNum (Args.jitter_threshold args)) /\
   o_meta o !! "drop_threshold" = Some (Args.JNum (Args.drop_threshold args)) /\
   o_meta o !! "start_bps" = Args.JNum <$> parse_bps (Some (Args.start args)) /\
   o_meta o !! "step_bps" = Args.JNum <$> parse_bps (Some (Args.step args)) /\
   o_meta o !! "max_bps" = Args.JNum <$> parse_bps (Some (Args.max_bps args))) /\
  (forall k, ~ In k fixed_fields -> o_meta o !! k = m !! k).
Proof.
  intros H Hm.
  destruct (main_written _ _ _ _ _ _ H)
    as (a & b & c & st & m' & Ha & Hb & Hc & _ & Hm' & Hmeta & _).
  destruct Hm' as [[Hm' _]|Hm']; rewrite Hm in Hm'; [discriminate|].
  injection Hm' as <-. rewrite Hmeta, Ha, Hb, Hc. unfold build_meta. split.
  - repeat split; simplify_map_eq; reflexivity.
  - intros k Hk. unfold fixed_fields in Hk. simpl in Hk.
    repeat (rewrite lookup_insert_ne; [|intros <-; apply Hk; auto 15]).
    reflexivity.
Qed.

Lemma meta_controller_fields_override_witness :
  let m : gmap string Args.json :=
    {[ "tool" := Args.JStr "mine"; "site" := Args.JStr "lab" ]} in
  let args :=
    {| Args.server := "10.0.0.1"; Args.port := 5201; Args.direction := "uplink";
       Args.duration := 15; Args.parallel := 4;
       Args.start := "2G"; Args.step := "2G"; Args.max_bps := "4G";
       Args.loss_threshold := 1; Args.jitter_threshold := 5;
       Args.drop_threshold := 5; Args.timeout := 45; Args.out := "out.json";
       Args.meta := Args.MetaObject m |} in
  match main 10 args (Fixture.always Fixture.good) "t" with
  | Some (Written _ o) =>
      o_meta o !! "tool" = Some (Args.JStr "iperf3") /\
      o_meta o !! "site" = Some (Args.JStr "lab")
  | _ => False
  end.
Proof.
  intros m args.
  destruct (main 10 args (Fixture.always Fixture.good) "t")
    as [[msg| |path o]|] eqn:H; try (vm_compute in H; discriminate).
  destruct (meta_controller_fields_override _ _ _ _ _ _ m H eq_refl)
    as [(Htool & _) Hother].
  split; [exact Htool|].
  rewrite Hother; [reflexivity|].
  simpl. intros Hin. repeat (destruct Hin as [Hin|Hin]; [discriminate|]). exact Hin.
Defined.

(** C9.  For each of 2_000_000_000, 1_500_000, 1_500 and 250, decoding the
    encoded string gives a value, and that value is the one encoded (so it
    lies within a thousandth of it). *)
Theorem codec_round_trip_on_representatives :
  Forall (fun x =>
            exists y, parse_bps (Some (bps_to_str x)) = Some y /\
                      y = x /\ (PrimFloat.abs (y - x) * 1000 <=? x)%float = true)
    representative_values.
Proof.
  unfold representative_values.
  repeat constructor; eexists; (split; [vm_compute; reflexivity|]);
    split; vm_compute; reflexivity.
Qed.

(** ** The order of doubles *)

Lemma SFcompare_swap x y : SFcompare y x = option_map CompOpp (SFcompare x y).
Proof.
  destruct x as [sx|sx| |sx mx ex], y as [sy|sy| |sy my ey]; simpl;
    try destruct sx; try destruct sy; try reflexivity.
  - rewrite (Z.compare_antisym ey ex). destruct (ey ?= ex)%Z; simpl; try reflexivity.
    rewrite (Pos.compare_cont_antisym mx my Eq). simpl.
    destruct (Pos.compare_cont Eq mx my); reflexivity.
  - rewrite (Z.compare_antisym ey ex). destruct (ey ?= ex)%Z; simpl; try reflexivity.
    rewrite (Pos.compare_cont_antisym mx my Eq). reflexivity.
Qed.

Lemma SFcompare_none x y : SFcompare x y = None <-> x = S754_nan \/ y = S754_nan.
Proof.
  destruct x as [sx|sx| |sx mx ex], y as [sy|sy| |sy my ey]; simpl;
    split; intros H; try discriminate; auto; destruct H; discriminate.
Qed.

Lemma SFcompare_refl x : x <> S754_nan -> SFcompare x x = Some Eq.
Proof.
  destruct x as [s|s| |s m e]; simpl; intros H; try congruence; destruct s; try reflexivity;
    rewrite Z.compare_refl; f_equal;
    change (Pos.compare_cont Eq m m) with (Pos.compare m m); rewrite Pos.compare_refl;
    reflexivity.
Qed.

Lemma is_nan_spec x : is_nan x = true <-> Prim2SF x = S754_nan.
Proof.
  unfold is_nan. rewrite FloatAxioms.eqb_spec. unfold SFeqb. split.
  - intros H. destruct (Prim2SF x) eqn:E; try reflexivity;
      rewrite SFcompare_refl in H by discriminate; discriminate.
  - intros ->. reflexivity.
Qed.

Lemma is_nan_false x : is_nan x = false <-> Prim2SF x <> S754_nan.
Proof.
  rewrite <- is_nan_spec. destruct (is_nan x); split; congruence.
Qed.

(** [b < x] is false exactly when [x <= b] or one of them is not a number. *)
Lemma ltb_false x b :
  (b <? x)%float = false <->
  (x <=? b)%float = true \/ is_nan x = true \/ is_nan b = true.
Proof.
  rewrite FloatAxioms.ltb_spec, FloatAxioms.leb_spec, !is_nan_spec. unfold SFltb, SFleb.
  rewrite (SFcompare_swap (Prim2SF b) (Prim2SF x)).
  destruct (SFcompare (Prim2SF b) (Prim2SF x)) as [[| |]|] eqn:E; simpl.
  - split; auto.
  - split; [discriminate|]. intros [H|[H|H]]; [discriminate| |];
      rewrite H in E; [destruct (Prim2SF b)|]; discriminate.
  - split; auto.
  - apply SFcompare_none in E. split; [|reflexivity]. intros _. right. tauto.
Qed.

Lemma ltb_leb x y : (x <? y)%float = true -> (x <=? y)%float = true.
Proof.
  rewrite FloatAxioms.ltb_spec, FloatAxioms.leb_spec. unfold SFltb, SFleb.
  destruct (SFcompare (Prim2SF x) (Prim2SF y)) as [[| |]|]; congruence.
Qed.

Lemma leb_refl_left x y : (x <=? y)%float = true -> (x <=? x)%float = true.
Proof.
  rewrite !FloatAxioms.leb_spec. unfold SFleb. intros H.
  rewrite SFcompare_refl; [reflexivity|]. intros E. rewrite E in H. discriminate.
Qed.

Lemma leb_not_nan x y : (x <=? y)%float = true -> is_nan x = false /\ is_nan y = false.
Proof.
  rewrite FloatAxioms.leb_spec, !is_nan_false. unfold SFleb. intros H.
  split; intros E; rewrite E in H; [|destruct (Prim2SF x)]; discriminate.
Qed.

(** The checks pass exactly when no reading that is present is above its
    bound, and the throughput is not below the floor. *)
Lemma fallback_check_spec args s prev :
  fallback_check args s prev = true <->
  (forall l, loss_percent s = Some l -> (Args.loss_threshold args <? l)%float = false) /\
  (forall j, jitter_ms s = Some j -> (Args.jitter_threshold args <? j)%float = false) /\
  (forall t p, throughput_bps s = Some t -> prev = Some p ->
               (t <? drop_floor args p)%float = false).
Proof.
  unfold fallback_check.
  destruct (loss_percent s) as [l|], (jitter_ms s) as [j|],
    (throughput_bps s) as [t|], prev as [p|];
    repeat match goal with
      | |- context [(?a <? ?b)%float] =>
          let E := fresh "E" in destruct (a <? b)%float eqn:E
      end;
    (split;
     [ intros H; try discriminate; repeat split; intros; simplify_eq; assumption
     | intros (Hl & Hj & Ht); try reflexivity; exfalso;
       try (specialize (Hl _ eq_refl)); try (specialize (Hj _ eq_refl));
       try (specialize (Ht _ _ eq_refl eq_refl)); congruence ]).
Qed.

(** The fallback only appends to [steps]. *)
Lemma step_down_steps args run start_bps step_bps st lok :
  exists more, steps (step_down args run start_bps step_bps st lok) = steps st ++ more.
Proof.
  unfold step_down. repeat case_match; simpl; eauto using app_nil_r.
  all: exists []; rewrite app_nil_r; reflexivity.
Qed.

Lemma fallback_steps args run start_bps step_bps st lok :
  exists more, steps (fallback_protocol args run start_bps step_bps st lok) = steps st ++ more.
Proof.
  unfold fallback_protocol. repeat case_match; simpl; eauto.
  all: match goal with
       | |- context [step_down ?a ?r ?x ?y ?s ?l] =>
           destruct (step_down_steps a r x y s l) as [more ->]
       end;
       simpl; rewrite <- ?app_assoc; eauto.
Qed.

(** Every turn of the loop only appends to [steps]. *)
Lemma body_steps args run start_bps step_bps st :
  exists more, steps (fst (loop_body args run start_bps step_bps st)) = steps st ++ more.
Proof.
  destruct (body_cases args run st)
    as [(e & c & se & cs & Hp)|[(d & c & cs & Hp & Hc)|(d & c & cs & Hp & Hc)]].
  - rewrite (body_error _ _ _ _ _ _ _ _ _ Hp). simpl. eauto.
  - rewrite (body_accept _ _ _ _ _ _ _ _ Hp Hc). simpl. eauto.
  - rewrite (body_reject _ _ _ _ _ _ _ _ Hp Hc). simpl.
    destruct (last_ok st) as [lok|]; [destruct (negb (fallback_attempted st))|];
      simpl; eauto.
    destruct (fallback_steps args run start_bps step_bps (rejected args st d c cs) lok)
      as [more ->].
    simpl. rewrite <- app_assoc. eauto.
Qed.



(** ** The reason of a rejected ramp step *)

Lemma ramp_check_reason args s prev r :
  fallback_check args s prev = false ->
  snd (ramp_check args s prev r) = last_violation args s prev.
Proof.
  unfold ramp_check, fallback_check, last_violation, drop_violated, jitter_violated,
    loss_violated.
  destruct (loss_percent s), (jitter_ms s), prev, (throughput_bps s);
    repeat case_match; simplify_eq/=; try reflexivity; discriminate.
Qed.

Lemma last_violation_threshold args s prev : threshold_reason (last_violation args s prev).
Proof. unfold last_violation, threshold_reason. repeat case_match; auto. Qed.

(** A rejected ramp step ends the session within its turn; what is left of
    the session is the fallback when there is an accepted step. *)
Lemma rejected_turn args run start_bps step_bps max_bps st data c cs :
  loop_cond max_bps st = true ->
  probe args run (calls st) (bps_to_str (current st)) = (IperfData data c, cs) ->
  fallback_check args (extract_udp_stats data) (prev_throughput st) = false ->
  exists out,
    (forall fuel, while_loop args run start_bps step_bps max_bps (S fuel) st = Some out) /\
    out = match last_ok st with
          | None => rejected args st data c cs
          | Some lok =>
              if negb (fallback_attempted st)
              then fallback_protocol args run start_bps step_bps (rejected args st data c cs) lok
              else rejected args st data c cs
          end.
Proof.
  intros Hc Hp Hk. eexists. split; [|reflexivity].
  intros fuel. apply loop_break; [exact Hc|].
  apply (body_reject _ _ _ _ _ _ _ _ Hp Hk).
Qed.

(** C5, as the code has it.  When a measured ramp step is rejected, the stop
    reason is that of the LAST check that fires in the order loss, jitter,
    throughput drop (followed by a fallback suffix when the fallback adopts a
    step): each check that fires overwrites the reason of the one before.  A
    step whose loss and jitter both exceed their thresholds, without a
    throughput drop, yields [jitter_threshold]. *)
Theorem stop_reason_is_the_last_violation args run start_bps step_bps max_bps st data c cs :
  loop_cond max_bps st = true ->
  probe args run (calls st) (bps_to_str (current st)) = (IperfData data c, cs) ->
  fallback_check args (extract_udp_stats data) (prev_throughput st) = false ->
  let s := extract_udp_stats data in
  let reason := last_violation args s (prev_throughput st) in
  exists out,
    (forall fuel, while_loop args run start_bps step_bps max_bps (S fuel) st = Some out) /\
    (stop_reason out = reason \/
     stop_reason out = reason +:+ "_fallback_confirmed" \/
     stop_reason out = reason +:+ "_fallback_stepdown") /\
    (loss_violated args s = true -> jitter_violated args s = true ->
     drop_violated args s (prev_throughput st) = false ->
     reason = "jitter_threshold").
Proof.
  intros Hc Hp Hk s reason.
  destruct (rejected_turn args run start_bps step_bps max_bps st data c cs Hc Hp Hk)
    as (out & Hout & ->).
  eexists. split; [exact Hout|]. split.
  - assert (Hr : stop_reason (rejected args st data c cs) = reason).
    { simpl. apply ramp_check_reason, Hk. }
    destruct (last_ok st) as [lok|]; [destruct (negb (fallback_attempted st))|]; auto.
    rewrite <- Hr. apply fallback_reason.
  - intros _ Hj Hd. subst reason. unfold last_violation. fold s. rewrite Hd, Hj. reflexivity.
Qed.

Lemma stop_reason_is_the_last_violation_witness :
  let args := Fixture.args0 "2G" "2G" "10G" in
  let run := Fixture.replay [Fixture.good; Fixture.noisy; Fixture.good] in
  let st := fst (loop_body args run (Fixture.G 2) (Fixture.G 2) (initial (Fixture.G 2))) in
  exists out,
    while_loop args run (Fixture.G 2) (Fixture.G 2) (Fixture.G 10) 1 st = Some out /\
    (stop_reason out = "jitter_threshold" \/
     stop_reason out = "jitter_threshold_fallback_confirmed" \/
     stop_reason out = "jitter_threshold_fallback_stepdown").
Proof.
  intros args run st.
  destruct (probe args run (calls st) (bps_to_str (current st)))
    as [[e c se|data c] cs] eqn:Hp; [vm_compute in Hp; discriminate Hp|].
  assert (Hd : extract_udp_stats data
               = {| throughput_bps := None; jitter_ms := Some 10%float;
                    loss_percent := Some 2%float; packets := None |}).
  { vm_compute in Hp. injection Hp as <- _ _. vm_compute. reflexivity. }
  assert (Hc : loop_cond (Fixture.G 10) st = true) by (vm_compute; reflexivity).
  assert (Hk : fallback_check args (extract_udp_stats data) (prev_throughput st) = false)
    by (rewrite Hd; vm_compute; reflexivity).
  destruct (stop_reason_is_the_last_violation args run (Fixture.G 2) (Fixture.G 2)
              (Fixture.G 10) st data c cs Hc Hp Hk) as (out & Hout & Hs & _).
  exists out. split; [apply Hout|].
  rewrite Hd in Hs. exact Hs.
Defined.

(** C5, as stated, fails: after an accepted step at 2G, the step at 4G
    measures loss 2% and jitter 10 ms, both above their thresholds, and the
    stop reason starts with [jitter_threshold], not with [loss_threshold]. *)
Lemma loss_and_jitter_report_jitter :
  let args := Fixture.args0 "2G" "2G" "10G" in
  let s := extract_udp_stats (Fixture.report_of None (Some 10%float) (Some 2%float)) in
  loss_violated args s = true /\ jitter_violated args s = true /\
  exists o,
    main 10 args (Fixture.replay [Fixture.good; Fixture.noisy; Fixture.good]) "t"
    = Some (Written "out.json" o) /\
    o_stop_reason o = "jitter_threshold_fallback_confirmed" /\
    (exists r, nth_error (o_steps o) 1 = Some r /\ ok r = false /\
               target_bps r = Fixture.G 4 /\ normal_role r = true).
Proof.
  split; [vm_compute; reflexivity|]. split; [vm_compute; reflexivity|].
  eexists. split; [vm_compute; reflexivity|]. split; [reflexivity|].
  eexists. split; [reflexivity|]. repeat split.
Qed.

(** ** The fallback protocol *)

Lemma count_role_app f a b : count_role f (a ++ b) = (count_role f a + count_role f b)%nat.
Proof. unfold count_role. rewrite List.filter_app, length_app. reflexivity. Qed.

Lemma ramping_no_roles st :
  ramping st -> count_role confirm (steps st) = O /\ count_role fallback (steps st) = O.
Proof.
  intros [_ _ Hs _ _]. unfold count_role.
  induction Hs as [|x l (_ & Hc & Hf) _ [IHc IHf]]; [auto|].
  simpl. rewrite Hc, Hf. auto.
Qed.

Section Fallback.

Variable args : Args.t.
Variable run : subprocess.
Variables start_bps step_bps max_bps : float.

(** The step-down, case by case. *)
Lemma step_down_skip st lok :
  PrimFloat.ltb (py_max start_bps (target_bps lok - step_bps)) (target_bps lok) = false ->
  step_down args run start_bps step_bps st lok = st.
Proof. intros H. unfold step_down. rewrite H. reflexivity. Qed.

Lemma step_down_error st lok e c se cs :
  let down := py_max start_bps (target_bps lok - step_bps) in
  PrimFloat.ltb down (target_bps lok) = true ->
  probe args run (calls st) (bps_to_str down) = (IperfError e c se, cs) ->
  step_down args run start_bps step_bps st lok = with_calls st cs.
Proof. intros down H Hp. unfold step_down. fold down. rewrite H, Hp. reflexivity. Qed.

Lemma step_down_data st lok data c cs :
  let down := py_max start_bps (target_bps lok - step_bps) in
  let rec := retry_record args down (prev_throughput st) data c in
  PrimFloat.ltb down (target_bps lok) = true ->
  probe args run (calls st) (bps_to_str down) = (IperfData data c, cs) ->
  step_down args run start_bps step_bps st lok =
    if ok rec then adopt (with_step st rec cs) rec "_fallback_stepdown"
    else with_step st rec cs.
Proof.
  intros down rec H Hp. unfold step_down. fold down. rewrite H, Hp. reflexivity.
Qed.

(** The confirm, case by case. *)
Lemma fallback_error st lok e c se cs :
  probe args run (calls st) (bps_to_str (target_bps lok)) = (IperfError e c se, cs) ->
  fallback_protocol args run start_bps step_bps st lok =
    step_down args run start_bps step_bps (with_calls (marked st) cs) lok.
Proof. intros Hp. unfold fallback_protocol. simpl. rewrite Hp. reflexivity. Qed.

Lemma fallback_data st lok data c cs :
  let rec := confirm_record args lok (prev_throughput st) data c in
  probe args run (calls st) (bps_to_str (target_bps lok)) = (IperfData data c, cs) ->
  fallback_protocol args run start_bps step_bps st lok =
    if ok rec then adopt (with_step (marked st) rec cs) rec "_fallback_confirmed"
    else step_down args run start_bps step_bps (with_step (marked st) rec cs) lok.
Proof. intros rec Hp. unfold fallback_protocol. simpl. rewrite Hp. reflexivity. Qed.

End Fallback.

Lemma count_role_snoc f l x :
  count_role f (l ++ [x]) = (count_role f l + (if f x then 1 else 0))%nat.
Proof. rewrite count_role_app. unfold count_role. simpl. destruct (f x); reflexivity. Qed.

(** What the step-down does to a session: no probe when the target would
    not decrease, otherwise one probe, adopted when it is accepted. *)
Lemma step_down_outcome args run start_bps step_bps st lok :
  let down := py_max start_bps (target_bps lok - step_bps) in
  let r_down := fst (probe args run (calls st) (bps_to_str down)) in
  let out := step_down args run start_bps step_bps st lok in
  count_role confirm (steps out) = count_role confirm (steps st) /\
  (count_role fallback (steps out) <= count_role fallback (steps st) + 1)%nat /\
  ((PrimFloat.ltb down (target_bps lok) = false /\ out = st) \/
   (PrimFloat.ltb down (target_bps lok) = true /\
    calls out = calls st ++ [probe_cmd args (bps_to_str down)] /\
    ((accepted args (prev_throughput st) r_down = true /\
      (exists s, last_ok out = Some s /\ last (steps out) = Some s /\
                 fallback s = true /\ ok s = true /\ target_bps s = down) /\
      stop_reason out = stop_reason st +:+ "_fallback_stepdown") \/
     (accepted args (prev_throughput st) r_down = false /\
      last_ok out = last_ok st /\ stop_reason out = stop_reason st /\
      (is_error r_down = true -> steps out = steps st))))).
Proof.
  intros down r_down out. subst r_down out.
  destruct (PrimFloat.ltb down (target_bps lok)) eqn:Hd.
  - destruct (probe args run (calls st) (bps_to_str down)) as [[e c se|d c] cs] eqn:Hp;
      pose proof (probe_log_eq _ _ _ _ _ _ Hp) as Hcs.
    + rewrite (step_down_error _ _ _ _ _ _ _ _ _ _ Hd Hp). simpl.
      split; [reflexivity|]. split; [lia|]. right. split; [reflexivity|].
      split; [exact Hcs|]. right. auto.
    + rewrite (step_down_data _ _ _ _ _ _ _ _ _ Hd Hp). fold down. simpl.
      destruct (fallback_check args (extract_udp_stats d) (prev_throughput st)) eqn:Hk;
        simpl; rewrite !count_role_snoc; simpl;
        (split; [lia|]); (split; [lia|]); right; (split; [reflexivity|]);
        (split; [exact Hcs|]).
      * left. split; [reflexivity|]. split; [|reflexivity].
        eexists. split; [reflexivity|]. rewrite last_snoc. simpl. rewrite Hk. auto.
      * right. repeat split; auto. discriminate.
  - rewrite (step_down_skip _ _ _ _ _ _ Hd). split; [reflexivity|]. split; [lia|]. auto.
Qed.

(** The whole fallback, from the head of the loop at which a measured ramp
    step is rejected. *)
Lemma fallback_outcome args run start_bps step_bps max_bps st lok data c cs :
  reachable args run start_bps step_bps max_bps st ->
  loop_cond max_bps st = true ->
  last_ok st = Some lok ->
  probe args run (calls st) (bps_to_str (current st)) = (IperfData data c, cs) ->
  fallback_check args (extract_udp_stats data) (prev_throughput st) = false ->
  let reason := last_violation args (extract_udp_stats data) (prev_throughput st) in
  let prev := prev_throughput st in
  let ramp_cmd := probe_cmd args (bps_to_str (current st)) in
  let confirm_cmd := probe_cmd args (bps_to_str (target_bps lok)) in
  let down := py_max start_bps (target_bps lok - step_bps) in
  let down_cmd := probe_cmd args (bps_to_str down) in
  let r_confirm :=
    fst (probe args run (calls st ++ [ramp_cmd]) (bps_to_str (target_bps lok))) in
  let r_down :=
    fst (probe args run ((calls st ++ [ramp_cmd]) ++ [confirm_cmd]) (bps_to_str down)) in
  exists out,
    (forall fuel, while_loop args run start_bps step_bps max_bps (S fuel) st = Some out) /\
    (count_role confirm (steps out) <= 1)%nat /\
    (count_role fallback (steps out) <= 1)%nat /\
    ((accepted args prev r_confirm = true /\
      calls out = calls st ++ [ramp_cmd; confirm_cmd] /\
      (exists s, last_ok out = Some s /\ last (steps out) = Some s /\
                 confirm s = true /\ ok s = true /\ target_bps s = target_bps lok) /\
      stop_reason out = reason +:+ "_fallback_confirmed") \/
     (accepted args prev r_confirm = false /\
      PrimFloat.ltb down (target_bps lok) = true /\
      calls out = calls st ++ [ramp_cmd; confirm_cmd; down_cmd] /\
      ((accepted args prev r_down = true /\
        (exists s, last_ok out = Some s /\ last (steps out) = Some s /\
                   fallback s = true /\ ok s = true /\ target_bps s = down) /\
        stop_reason out = reason +:+ "_fallback_stepdown") \/
       (accepted args prev r_down = false /\
        last_ok out = Some lok /\ stop_reason out = reason))) \/
     (accepted args prev r_confirm = false /\
      PrimFloat.ltb down (target_bps lok) = false /\
      calls out = calls st ++ [ramp_cmd; confirm_cmd] /\
      last_ok out = Some lok /\ stop_reason out = reason)).
Proof.
  intros Hr Hc Hl Hp Hk reason prev ramp_cmd confirm_cmd down down_cmd r_confirm r_down.
  pose proof (reachable_ramping _ _ _ _ _ _ Hr) as Hramp.
  destruct (ramping_no_roles _ Hramp) as [Hnc Hnf].
  destruct (rejected_turn args run start_bps step_bps max_bps st data c cs Hc Hp Hk)
    as (out & Hout & Hdef).
  rewrite Hl, (ramping_flag _ Hramp) in Hdef. simpl in Hdef.
  exists out. split; [exact Hout|]. clear Hout.
  pose proof (probe_log_eq _ _ _ _ _ _ Hp) as Hcs. fold ramp_cmd in Hcs.
  pose proof (ramp_check_reason args _ _ (stop_reason st) Hk) as Hreason. fold reason in Hreason.
  assert (Hst1 : steps (rejected args st data c cs) = steps st ++ [ramp_step args st data c])
    by reflexivity.
  assert (Hcount : forall f more,
             f (ramp_step args st data c) = false -> count_role f (steps st) = O ->
             count_role f ((steps st ++ [ramp_step args st data c]) ++ more)
             = count_role f more).
  { intros f more Hf H0. rewrite !count_role_app, H0. unfold count_role. simpl.
    rewrite Hf. reflexivity. }
  assert (Hn1 : count_role confirm (steps st ++ [ramp_step args st data c]) = O)
    by (rewrite count_role_snoc, Hnc; reflexivity).
  assert (Hn2 : count_role fallback (steps st ++ [ramp_step args st data c]) = O)
    by (rewrite count_role_snoc, Hnf; reflexivity).
  subst r_confirm r_down prev. rewrite <- Hcs.
  destruct (probe args run cs (bps_to_str (target_bps lok))) as [[e2 c2 se2|d2 c2] cs2] eqn:Hp2;
    pose proof (probe_log_eq _ _ _ _ _ _ Hp2) as Hcs2; fold confirm_cmd in Hcs2;
    rewrite <- Hcs2; simpl fst.
  - (* the confirm failed *)
    rewrite (fallback_error args run start_bps step_bps (rejected args st data c cs) lok
               _ _ _ _ Hp2) in Hdef.
    destruct (step_down_outcome args run start_bps step_bps
                (with_calls (marked (rejected args st data c cs)) cs2) lok)
      as (Hc1 & Hc2 & Hsd).
    rewrite <- Hdef in Hc1, Hc2, Hsd. simpl in Hc1, Hc2, Hsd. fold down in Hsd.
    rewrite Hreason, Hl in Hsd. rewrite Hn1 in Hc1. rewrite Hn2 in Hc2.
    split; [lia|]. split; [lia|]. right.
    destruct Hsd as [[Hd ->]|(Hd & Hcalls & Hrest)].
    + right. simpl. rewrite Hreason, Hl, Hcs2, Hcs, <- app_assoc. auto.
    + left. rewrite Hcs2, Hcs, <- !app_assoc in Hcalls. simpl in Hcalls.
      fold down_cmd in Hcalls. split; [reflexivity|]. split; [exact Hd|].
      split; [exact Hcalls|].
      destruct Hrest as [(Ha & Hs & Hsr)|(Ha & Hlo & Hsr & _)]; [left|right]; auto.
  - (* the confirm was measured *)
    rewrite (fallback_data args run start_bps step_bps (rejected args st data c cs) lok
               _ _ _ Hp2) in Hdef.
    simpl in Hdef. simpl accepted.
    destruct (fallback_check args (extract_udp_stats d2) (prev_throughput st)) eqn:Hk2.
    + (* ... and accepted *)
      subst out. simpl. rewrite count_role_snoc, Hn1, count_role_snoc, Hn2. simpl.
      rewrite ?Hk2.
      split; [lia|]. split; [lia|]. left. split; [reflexivity|].
      split; [rewrite Hcs2, Hcs, <- app_assoc; reflexivity|].
      split; [|rewrite Hreason; reflexivity].
      eexists. split; [reflexivity|]. rewrite last_snoc. simpl. rewrite Hk2. auto.
    + (* ... and rejected *)
      destruct (step_down_outcome args run start_bps step_bps
                  (with_step (marked (rejected args st data c cs))
                     (confirm_record args lok (prev_throughput st) d2 c2) cs2) lok)
        as (Hc1 & Hc2 & Hsd).
      rewrite <- Hdef in Hc1, Hc2, Hsd. simpl in Hc1, Hc2, Hsd. fold down in Hsd.
      rewrite Hreason, Hl in Hsd.
      rewrite count_role_snoc, Hn1 in Hc1. rewrite count_role_snoc, Hn2 in Hc2.
      simpl in Hc1, Hc2.
      split; [lia|]. split; [lia|]. right.
      destruct Hsd as [[Hd ->]|(Hd & Hcalls & Hrest)].
      * right. simpl. rewrite Hreason, Hl, Hcs2, Hcs, <- app_assoc. auto.
      * left. rewrite Hcs2, Hcs, <- !app_assoc in Hcalls. simpl in Hcalls.
        fold down_cmd in Hcalls. split; [reflexivity|]. split; [exact Hd|].
        split; [exact Hcalls|].
        destruct Hrest as [(Ha & Hs & Hsr)|(Ha & Hlo & Hsr & _)]; [left|right]; auto.
Qed.

(** The command line of a probe, written out. *)
Lemma probe_cmd_words args bw :
  probe_cmd args bw
  = ["iperf3"; "-c"; Args.server args; "-p"; PyStr.str_Z (Args.port args);
     "-t"; PyStr.str_Z (Args.duration args); "-P"; PyStr.str_Z (Args.parallel args);
     "-J"; "-u"; "-b"; bw]
    ++ (if String.eqb (Args.direction args) "downlink" then ["-R"] else []).
Proof.
  unfold probe_cmd, iperf_cmd. destruct (String.eqb (Args.direction args) "downlink");
    [reflexivity|rewrite app_nil_r; reflexivity].
Qed.

(** C2.  From a head of the loop with an accepted step behind it, a rejected
    measurement runs the fallback once and ends the session in that turn.  One
    confirm probe is issued at the target of the last accepted step.  If it is
    accepted, its record is the selection, the stop reason gains
    [_fallback_confirmed] and no other probe follows.  If it is not, one
    step-down probe is issued at [max(start, target - step)], that is at
    [target - step] when that is above the start and at the start otherwise,
    and only when that is strictly below the target; accepted, its record is
    the selection and the stop reason gains [_fallback_stepdown]; otherwise
    the selection and the stop reason stay.  At most one confirm and one
    fallback record are in the steps.  Each probe is the [iperf3] command with
    the printed target after [-b]. *)
Theorem fallback_runs_once args run start_bps step_bps max_bps st lok data c cs :
  reachable args run start_bps step_bps max_bps st ->
  loop_cond max_bps st = true ->
  last_ok st = Some lok ->
  probe args run (calls st) (bps_to_str (current st)) = (IperfData data c, cs) ->
  fallback_check args (extract_udp_stats data) (prev_throughput st) = false ->
  let reason := last_violation args (extract_udp_stats data) (prev_throughput st) in
  let prev := prev_throughput st in
  let cmd_at (bw : string) :=
    ["iperf3"; "-c"; Args.server args; "-p"; PyStr.str_Z (Args.port args);
     "-t"; PyStr.str_Z (Args.duration args); "-P"; PyStr.str_Z (Args.parallel args);
     "-J"; "-u"; "-b"; bw]
    ++ (if String.eqb (Args.direction args) "downlink" then ["-R"] else []) in
  let ramp_cmd := cmd_at (bps_to_str (current st)) in
  let confirm_cmd := cmd_at (bps_to_str (target_bps lok)) in
  let down :=
    if (start_bps <? target_bps lok - step_bps)%float
    then (target_bps lok - step_bps)%float else start_bps in
  let down_cmd := cmd_at (bps_to_str down) in
  let r_confirm :=
    fst (probe args run (calls st ++ [ramp_cmd]) (bps_to_str (target_bps lok))) in
  let r_down :=
    fst (probe args run ((calls st ++ [ramp_cmd]) ++ [confirm_cmd]) (bps_to_str down)) in
  exists out,
    (forall fuel, while_loop args run start_bps step_bps max_bps (S fuel) st = Some out) /\
    (count_role confirm (steps out) <= 1)%nat /\
    (count_role fallback (steps out) <= 1)%nat /\
    ((accepted args prev r_confirm = true /\
      calls out = calls st ++ [ramp_cmd; confirm_cmd] /\
      (exists s, last_ok out = Some s /\ last (steps out) = Some s /\
                 confirm s = true /\ ok s = true /\ target_bps s = target_bps lok) /\
      stop_reason out = reason +:+ "_fallback_confirmed") \/
     (accepted args prev r_confirm = false /\
      (down <? target_bps lok)%float = true /\
      calls out = calls st ++ [ramp_cmd; confirm_cmd; down_cmd] /\
      ((accepted args prev r_down = true /\
        (exists s, last_ok out = Some s /\ last (steps out) = Some s /\
                   fallback s = true /\ ok s = true /\ target_bps s = down) /\
        stop_reason out = reason +:+ "_fallback_stepdown") \/
       (accepted args prev r_down = false /\
        last_ok out = Some lok /\ stop_reason out = reason))) \/
     (accepted args prev r_confirm = false /\
      (down <? target_bps lok)%float = false /\
      calls out = calls st ++ [ramp_cmd; confirm_cmd] /\
      last_ok out = Some lok /\ stop_reason out = reason)).
Proof.
  intros Hr Hc Hl Hp Hk reason prev cmd_at.
  assert (Hcmd : forall bw, cmd_at bw = probe_cmd args bw)
    by (intros bw; symmetry; apply probe_cmd_words).
  cbv zeta. rewrite !Hcmd.
  exact (fallback_outcome args run start_bps step_bps max_bps st lok data c cs Hr Hc Hl Hp Hk).
Qed.

(** After 2G, 4G and 6G are accepted and 8G shows loss 2%, the confirm at 6G
    shows loss 2% as well and the step-down is probed at 4G, which is
    [6G - 2G] and above the start; it passes and is the selection. *)
Lemma fallback_runs_once_witness :
  let args := Fixture.args0 "2G" "2G" "10G" in
  let run :=
    Fixture.replay [Fixture.good; Fixture.good; Fixture.good; Fixture.lossy; Fixture.lossy;
                    Fixture.good] in
  let st1 := fst (loop_body args run 2e9 2e9 (initial 2e9)) in
  let st2 := fst (loop_body args run 2e9 2e9 st1) in
  let st3 := fst (loop_body args run 2e9 2e9 st2) in
  exists out,
    while_loop args run 2e9 2e9 10e9 1 st3 = Some out /\
    (count_role confirm (steps out) <= 1)%nat /\
    (count_role fallback (steps out) <= 1)%nat /\
    length (calls out) = 6%nat /\
    nth_error (calls out) 5
    = Some ["iperf3"; "-c"; "10.0.0.1"; "-p"; "5201"; "-t"; "15"; "-P"; "4"; "-J"; "-u";
            "-b"; "4.000G"] /\
    option_map target_bps (last_ok out) = Some 4e9%float /\
    stop_reason out = "loss_threshold_fallback_stepdown".
Proof.
  intros args run st1 st2 st3.
  assert (Hr : reachable args run 2e9 2e9 10e9 st3).
  { apply (reach_turn _ _ _ _ _ st2 st3).
    - apply (reach_turn _ _ _ _ _ st1 st2).
      + apply (reach_turn _ _ _ _ _ (initial 2e9) st1).
        * apply reach_initial.
        * vm_compute. reflexivity.
        * vm_compute. reflexivity.
      + vm_compute. reflexivity.
      + vm_compute. reflexivity.
    - vm_compute. reflexivity.
    - vm_compute. reflexivity. }
  destruct (last_ok st3) as [lok|] eqn:Hl; [|vm_compute in Hl; discriminate Hl].
  destruct (probe args run (calls st3) (bps_to_str (current st3)))
    as [[e c se|data c] cs] eqn:Hp; [vm_compute in Hp; discriminate Hp|].
  assert (Hc : loop_cond 10e9 st3 = true) by (vm_compute; reflexivity).
  assert (Hk : fallback_check args (extract_udp_stats data) (prev_throughput st3) = false).
  { vm_compute in Hp. injection Hp as <- _ _. vm_compute. reflexivity. }
  destruct (fallback_runs_once args run 2e9 2e9 10e9 st3 lok data c cs Hr Hc Hl Hp Hk)
    as (out & Hout & Hn1 & Hn2 & _).
  exists out. split; [apply Hout|]. split; [exact Hn1|]. split; [exact Hn2|].
  clear Hr Hl Hp Hc Hk Hn1 Hn2.
  pose proof (Hout O) as H0. clear Hout. vm_compute in H0. injection H0 as <-.
  repeat split.
Defined.

Lemma is_error_not_accepted args prev r : is_error r = true -> accepted args prev r = false.
Proof. destruct r; [reflexivity|discriminate]. Qed.

(** C1, as the code has it.  A failed ramp probe ends the session at once:
    no further probe is issued, the stop reason is the error string of the
    failure and the selection is the last accepted step, if any.  A failed
    confirm probe is handled as a confirm that did not pass: the step-down
    probe is still issued at [max(start, target - step)] when that is strictly
    below the target; if it is accepted its record becomes the selection and
    the stop reason is the threshold reason with [_fallback_stepdown];
    otherwise, and when no step-down probe is issued, the selection stays the
    last accepted step and the stop reason the threshold reason.  A failed
    step-down probe ends the session with the selection unchanged and the
    threshold reason as stop reason. *)
Theorem failed_probe_outcomes args run start_bps step_bps max_bps st :
  reachable args run start_bps step_bps max_bps st ->
  loop_cond max_bps st = true ->
  let cmd_at (bw : string) :=
    ["iperf3"; "-c"; Args.server args; "-p"; PyStr.str_Z (Args.port args);
     "-t"; PyStr.str_Z (Args.duration args); "-P"; PyStr.str_Z (Args.parallel args);
     "-J"; "-u"; "-b"; bw]
    ++ (if String.eqb (Args.direction args) "downlink" then ["-R"] else []) in
  let ramp_cmd := cmd_at (bps_to_str (current st)) in
  (forall e c se cs,
      probe args run (calls st) (bps_to_str (current st)) = (IperfError e c se, cs) ->
      exists out,
        (forall fuel, while_loop args run start_bps step_bps max_bps (S fuel) st = Some out) /\
        calls out = calls st ++ [ramp_cmd] /\
        stop_reason out = e /\ error_kind e /\
        last_ok out = last_ok st /\ last_ok st = last (steps st) /\
        steps out = steps st ++ [error_step st e c se]) /\
  (forall lok data c cs,
      last_ok st = Some lok ->
      probe args run (calls st) (bps_to_str (current st)) = (IperfData data c, cs) ->
      fallback_check args (extract_udp_stats data) (prev_throughput st) = false ->
      let reason := last_violation args (extract_udp_stats data) (prev_throughput st) in
      let prev := prev_throughput st in
      let confirm_cmd := cmd_at (bps_to_str (target_bps lok)) in
      let down :=
        if (start_bps <? target_bps lok - step_bps)%float
        then (target_bps lok - step_bps)%float else start_bps in
      let down_cmd := cmd_at (bps_to_str down) in
      let r_confirm :=
        fst (probe args run (calls st ++ [ramp_cmd]) (bps_to_str (target_bps lok))) in
      let r_down :=
        fst (probe args run ((calls st ++ [ramp_cmd]) ++ [confirm_cmd]) (bps_to_str down)) in
      exists out,
        (forall fuel, while_loop args run start_bps step_bps max_bps (S fuel) st = Some out) /\
        threshold_reason reason /\
        (is_error r_confirm = true ->
         ((down <? target_bps lok)%float = true ->
          calls out = calls st ++ [ramp_cmd; confirm_cmd; down_cmd] /\
          ((accepted args prev r_down = true /\
            (exists s, last_ok out = Some s /\ last (steps out) = Some s /\
                       fallback s = true /\ ok s = true /\ target_bps s = down) /\
            stop_reason out = reason +:+ "_fallback_stepdown") \/
           (accepted args prev r_down = false /\
            last_ok out = Some lok /\ stop_reason out = reason))) /\
         ((down <? target_bps lok)%float = false ->
          calls out = calls st ++ [ramp_cmd; confirm_cmd] /\
          last_ok out = Some lok /\ stop_reason out = reason)) /\
        (accepted args prev r_confirm = false ->
         (down <? target_bps lok)%float = true ->
         is_error r_down = true ->
         calls out = calls st ++ [ramp_cmd; confirm_cmd; down_cmd] /\
         last_ok out = Some lok /\ stop_reason out = reason)).
Proof.
  intros Hr Hc cmd_at.
  assert (Hcmd : forall bw, cmd_at bw = probe_cmd args bw)
    by (intros bw; symmetry; apply probe_cmd_words).
  intros ramp_cmd. split.
  - intros e c se cs Hp. subst ramp_cmd. rewrite Hcmd.
    eexists. split; [|split; [|split; [|split; [|split; [|split]]]]].
    + intros fuel. apply loop_break; [exact Hc|]. apply (body_error _ _ _ _ _ _ _ _ _ Hp).
    + simpl. apply (probe_log_eq _ _ _ _ _ _ Hp).
    + reflexivity.
    + apply (probe_error_kind _ _ _ _ _ _ _ _ Hp).
    + reflexivity.
    + apply ramping_last, (reachable_ramping _ _ _ _ _ _ Hr).
    + reflexivity.
  - intros lok data c cs Hl Hp Hk. subst ramp_cmd. cbv zeta. rewrite !Hcmd.
    destruct (fallback_outcome args run start_bps step_bps max_bps st lok data c cs
                Hr Hc Hl Hp Hk) as (out & Hout & _ & _ & Hcases).
    cbv zeta in Hcases.
    change (py_max start_bps (target_bps lok - step_bps))
      with (if (start_bps <? target_bps lok - step_bps)%float
            then (target_bps lok - step_bps)%float else start_bps) in Hcases.
    set (reason := last_violation args (extract_udp_stats data) (prev_throughput st)) in *.
    set (prev := prev_throughput st) in *.
    set (ramp_cmd := probe_cmd args (bps_to_str (current st))) in *.
    set (confirm_cmd := probe_cmd args (bps_to_str (target_bps lok))) in *.
    set (down := if (start_bps <? target_bps lok - step_bps)%float
                 then (target_bps lok - step_bps)%float else start_bps) in *.
    set (down_cmd := probe_cmd args (bps_to_str down)) in *.
    set (r_confirm := fst (probe args run (calls st ++ [ramp_cmd])
                             (bps_to_str (target_bps lok)))) in *.
    set (r_down := fst (probe args run ((calls st ++ [ramp_cmd]) ++ [confirm_cmd])
                          (bps_to_str down))) in *.
    exists out. split; [exact Hout|]. split; [apply last_violation_threshold|].
    split.
    + intros He. apply (is_error_not_accepted args prev) in He.
      destruct Hcases as [(Ha & _)|[(_ & Hd & Hcalls & Hrest)|(_ & Hd & Hcalls & Hlo & Hsr)]].
      * congruence.
      * split; [auto|]. intros Hd'. congruence.
      * split; [|auto]. intros Hd'. congruence.
    + intros Ha Hd He. apply (is_error_not_accepted args prev) in He.
      destruct Hcases as [(Ha' & _)|[(_ & _ & Hcalls & Hrest)|(_ & Hd' & _)]];
        [congruence| |congruence].
      destruct Hrest as [(Ha' & _)|(_ & Hlo & Hsr)]; [congruence|auto].
Qed.

(** A ramp probe that times out at the first target; and, after 2G, 4G and
    6G are accepted and 8G shows loss 2%, a confirm at 6G that times out: the
    step-down is probed at 4G, passes and becomes the selection. *)
Lemma failed_probe_outcomes_witness :
  let args := Fixture.args0 "2G" "2G" "10G" in
  let run :=
    Fixture.replay
      [Fixture.good; Fixture.good; Fixture.good; Fixture.lossy; TimeoutExpired;
       Fixture.good] in
  let st1 := fst (loop_body args run 2e9 2e9 (initial 2e9)) in
  let st2 := fst (loop_body args run 2e9 2e9 st1) in
  let st3 := fst (loop_body args run 2e9 2e9 st2) in
  (exists out,
      while_loop args (Fixture.replay []) 2e9 2e9 10e9 1 (initial 2e9) = Some out /\
      stop_reason out = "timeout" /\ last_ok out = None /\ length (calls out) = 1%nat) /\
  (exists out,
      while_loop args run 2e9 2e9 10e9 1 st3 = Some out /\
      stop_reason out = "loss_threshold_fallback_stepdown" /\
      option_map (fun s => (target_bps s, fallback s)) (last_ok out)
      = Some (4e9%float, true) /\
      length (calls out) = 6%nat).
Proof.
  intros args run st1 st2 st3. split.
  - destruct (probe args (Fixture.replay []) (calls (initial 2e9))
                (bps_to_str (current (initial 2e9))))
      as [[e c se|data c] cs] eqn:Hp; [|vm_compute in Hp; discriminate Hp].
    destruct (failed_probe_outcomes args (Fixture.replay []) 2e9 2e9 10e9 (initial 2e9))
      as [Hramp _].
    + apply reach_initial.
    + vm_compute. reflexivity.
    + destruct (Hramp e c se cs Hp) as (out & Hout & Hcalls & Hs & _ & Hl & _).
      exists out. split; [apply Hout|].
      vm_compute in Hp. injection Hp as <- _ _ _.
      split; [exact Hs|]. split; [exact Hl|]. rewrite Hcalls. reflexivity.
  - assert (Hr : reachable args run 2e9 2e9 10e9 st3).
    { apply (reach_turn _ _ _ _ _ st2 st3).
      - apply (reach_turn _ _ _ _ _ st1 st2).
        + apply (reach_turn _ _ _ _ _ (initial 2e9) st1).
          * apply reach_initial.
          * vm_compute. reflexivity.
          * vm_compute. reflexivity.
        + vm_compute. reflexivity.
        + vm_compute. reflexivity.
      - vm_compute. reflexivity.
      - vm_compute. reflexivity. }
    assert (Hc : loop_cond 10e9 st3 = true) by (vm_compute; reflexivity).
    destruct (last_ok st3) as [lok|] eqn:Hl; [|vm_compute in Hl; discriminate Hl].
    destruct (probe args run (calls st3) (bps_to_str (current st3)))
      as [[e c se|data c] cs] eqn:Hp; [vm_compute in Hp; discriminate Hp|].
    destruct (failed_probe_outcomes args run 2e9 2e9 10e9 st3 Hr Hc) as [_ Hfb].
    assert (Hk : fallback_check args (extract_udp_stats data) (prev_throughput st3) = false).
    { vm_compute in Hp. injection Hp as <- _ _. vm_compute. reflexivity. }
    destruct (Hfb lok data c cs Hl Hp Hk) as (out & Hout & _ & _ & _).
    exists out. split; [apply Hout|].
    clear Hr Hc Hl Hp Hk Hfb.
    pose proof (Hout O) as H0. clear Hout. vm_compute in H0. injection H0 as <-.
    repeat split.
Defined.

(** C1, as stated, fails.  With 2G, 4G and 6G accepted and 8G rejected for
    loss, the confirm probe (the fifth probe, at 6G) times out; a sixth probe,
    the step-down at 4G, is still issued, it is adopted as the selection, and
    the stop reason is [loss_threshold_fallback_stepdown], not [timeout].
    When instead the step-down probe times out, the stop reason stays
    [loss_threshold]. *)
Lemma failed_confirm_is_not_fatal :
  let args := Fixture.args0 "2G" "2G" "10G" in
  let run :=
    Fixture.replay
      [Fixture.good; Fixture.good; Fixture.good; Fixture.lossy; TimeoutExpired;
       Fixture.good] in
  let run' :=
    Fixture.replay
      [Fixture.good; Fixture.good; Fixture.good; Fixture.lossy; Fixture.lossy;
       TimeoutExpired] in
  let cmd_at (bw : string) :=
    ["iperf3"; "-c"; "10.0.0.1"; "-p"; "5201"; "-t"; "15"; "-P"; "4"; "-J"; "-u"; "-b"; bw] in
  (exists out,
      run_session args run 2e9 2e9 10e9 10 = Some out /\
      nth_error (calls out) 4 = Some (cmd_at "6.000G") /\
      run 4%nat (cmd_at "6.000G") 45%Z = TimeoutExpired /\
      nth_error (calls out) 5 = Some (cmd_at "4.000G") /\
      stop_reason out = "loss_threshold_fallback_stepdown" /\
      (exists s, last_ok out = Some s /\ target_bps s = 4e9%float /\ fallback s = true)) /\
  (exists out,
      run_session args run' 2e9 2e9 10e9 10 = Some out /\
      nth_error (calls out) 5 = Some (cmd_at "4.000G") /\
      run' 5%nat (cmd_at "4.000G") 45%Z = TimeoutExpired /\
      stop_reason out = "loss_threshold").
Proof.
  split.
  - eexists. split; [vm_compute; reflexivity|].
    repeat (split; [reflexivity|]). eexists. repeat split.
  - eexists. split; [vm_compute; reflexivity|]. repeat split.
Qed.

(** C3, on the code.  With 2G and 4G accepted and 6G rejected for loss, the
    confirm probe at 4G times out and the step-down probe at 2G exits with
    code 1: five probes are issued and only the three ramp probes have a record
    in [steps].  The failed ramp probe of another session is recorded. *)
Theorem failed_fallback_probes_leave_no_record :
  let args := Fixture.args0 "2G" "2G" "10G" in
  let run :=
    Fixture.replay
      [Fixture.good; Fixture.good; Fixture.lossy; TimeoutExpired;
       CompletedProcess 1 None "boom"] in
  (exists out,
      run_session args run 2e9 2e9 10e9 10 = Some out /\
      calls out = map (probe_cmd args) ["2.000G"; "4.000G"; "6.000G"; "4.000G"; "2.000G"] /\
      map (fun s => (target_str s, normal_role s, ok s)) (steps out)
      = [("2.000G", true, true); ("4.000G", true, true); ("6.000G", true, false)]) /\
  (exists out,
      run_session args (Fixture.replay [Fixture.good; TimeoutExpired])
        2e9 2e9 10e9 10 = Some out /\
      length (calls out) = 2%nat /\
      map (fun s => (target_str s, error s)) (steps out)
      = [("2.000G", None); ("4.000G", Some "timeout")]).
Proof.
  split; eexists; (split; [vm_compute; reflexivity|]); split; reflexivity.
Qed.

(** ** The ramp when every probe is accepted *)

Lemma loop_stop args run start_bps step_bps max_bps fuel st :
  loop_cond max_bps st = false ->
  while_loop args run start_bps step_bps max_bps (S fuel) st = Some st.
Proof. intros H. simpl. rewrite H. reflexivity. Qed.








(** ** The recorder and the scenarios *)

(** X1.  The steps are only appended to: whatever the probes return, the
    steps of a finished session start with the steps recorded before, in the
    same order and unchanged. *)
Theorem steps_only_grow args run start_bps step_bps max_bps fuel st out :
  while_loop args run start_bps step_bps max_bps fuel st = Some out ->
  exists more, steps out = steps st ++ more.
Proof.
  revert st. induction fuel as [|fuel IH]; intros st H; [discriminate|].
  simpl in H. destruct (loop_cond max_bps st).
  - destruct (body_steps args run start_bps step_bps st) as [m1 Hm1].
    destruct (loop_body args run start_bps step_bps st) as [st' []]; simpl in Hm1.
    + destruct (IH st' H) as [m2 Hm2]. exists (m1 ++ m2).
      rewrite Hm2, Hm1, app_assoc. reflexivity.
    + simplify_eq. eauto.
  - simplify_eq. exists []. rewrite app_nil_r. reflexivity.
Qed.

Lemma steps_only_grow_witness :
  let args := Fixture.args0 "2G" "2G" "10G" in
  let run :=
    Fixture.replay [Fixture.good; Fixture.good; Fixture.lossy; Fixture.lossy; Fixture.good] in
  let st1 := fst (loop_body args run (Fixture.G 2) (Fixture.G 2) (initial (Fixture.G 2))) in
  match while_loop args run (Fixture.G 2) (Fixture.G 2) (Fixture.G 10) 5 st1 with
  | Some out => length (steps out) = 5%nat /\ exists more, steps out = steps st1 ++ more
  | None => False
  end.
Proof.
  intros args run st1.
  destruct (while_loop args run (Fixture.G 2) (Fixture.G 2) (Fixture.G 10) 5 st1)
    as [out|] eqn:H; [|vm_compute in H; discriminate].
  split.
  - vm_compute in H. injection H as <-. reflexivity.
  - exact (steps_only_grow _ _ _ _ _ _ _ _ H).
Defined.

(** X2.  Scenarios B and C.  With 2G and 4G accepted and 6G at loss 2%: when
    the confirm probe at 4G passes, the stop reason is
    [loss_threshold_fallback_confirmed] and the selection is the confirm
    record at 4e9; when the confirm also shows loss 2% and the step-down at
    2G passes, the stop reason is [loss_threshold_fallback_stepdown] and the
    selection is the fallback record at 2e9. *)
Theorem scenarios_confirm_and_stepdown :
  (exists o,
      main 10 (Fixture.args0 "2G" "2G" "10G")
        (Fixture.replay [Fixture.good; Fixture.good; Fixture.lossy; Fixture.good]) "t"
      = Some (Written "out.json" o) /\
      o_stop_reason o = "loss_threshold_fallback_confirmed" /\
      option_map (fun s => (target_bps s, confirm s, fallback s)) (o_selected o)
      = Some (4e9%float, true, false) /\
      map target_str (o_steps o) = ["2.000G"; "4.000G"; "6.000G"; "4.000G"]) /\
  (exists o,
      main 10 (Fixture.args0 "2G" "2G" "10G")
        (Fixture.replay
           [Fixture.good; Fixture.good; Fixture.lossy; Fixture.lossy; Fixture.good]) "t"
      = Some (Written "out.json" o) /\
      o_stop_reason o = "loss_threshold_fallback_stepdown" /\
      option_map (fun s => (target_bps s, confirm s, fallback s)) (o_selected o)
      = Some (2e9%float, false, true) /\
      map target_str (o_steps o) = ["2.000G"; "4.000G"; "6.000G"; "4.000G"; "2.000G"]).
Proof.
  split; eexists; (split; [vm_compute; reflexivity|]); repeat split.
Qed.

(** ** The anatomy of a finished session *)

(** Where a finished session stopped: at the bound, on a failed ramp probe, on
    a rejected first step, or in the fallback after a rejected step. *)
Lemma session_anatomy args run start_bps step_bps max_bps fuel out :
  run_session args run start_bps step_bps max_bps fuel = Some out ->
  exists st,
    reachable args run start_bps step_bps max_bps st /\
    ((out = st /\ loop_cond max_bps st = false) \/
     (loop_cond max_bps st = true /\
      exists e c se cs,
        probe args run (calls st) (bps_to_str (current st)) = (IperfError e c se, cs) /\
        out = {| steps := steps st ++ [error_step st e c se]; last_ok := last_ok st;
                 stop_reason := e; prev_throughput := prev_throughput st;
                 fallback_attempted := fallback_attempted st;
                 current := current st; calls := cs |}) \/
     (loop_cond max_bps st = true /\
      exists data c cs,
        probe args run (calls st) (bps_to_str (current st)) = (IperfData data c, cs) /\
        fallback_check args (extract_udp_stats data) (prev_throughput st) = false /\
        last_ok st = None /\ out = rejected args st data c cs) \/
     (loop_cond max_bps st = true /\
      exists data c cs lok,
        probe args run (calls st) (bps_to_str (current st)) = (IperfData data c, cs) /\
        fallback_check args (extract_udp_stats data) (prev_throughput st) = false /\
        last_ok st = Some lok /\
        out = fallback_protocol args run start_bps step_bps (rejected args st data c cs) lok)).
Proof.
  unfold run_session. intros H.
  destruct (loop_end _ _ _ _ _ _ _ _ (reach_initial _ _ _ _ _) H)
    as [[Hr Hc]|(st & Hr & Hc & Hb)].
  - exists out. split; [exact Hr|]. left. auto.
  - exists st. split; [exact Hr|]. right.
    destruct (body_cases args run st)
      as [(e & c & se & cs & Hp)|[(d & c & cs & Hp & Hk)|(d & c & cs & Hp & Hk)]].
    + rewrite (body_error _ _ _ _ _ _ _ _ _ Hp) in Hb. simplify_eq. left. eauto 10.
    + rewrite (body_accept _ _ _ _ _ _ _ _ Hp Hk) in Hb. discriminate.
    + rewrite (body_reject _ _ _ _ _ _ _ _ Hp Hk) in Hb.
      rewrite (ramping_flag _ (reachable_ramping _ _ _ _ _ _ Hr)) in Hb. simpl in Hb.
      destruct (last_ok st) as [lok|] eqn:Hl; simplify_eq; right; [right|left]; eauto 12.
Qed.

(** What the fallback adds to the steps and to the probe log: at most two
    records, none of the normal role; and at most two probes, never fewer than
    the records. *)
Lemma step_down_tail args run start_bps step_bps st lok :
  exists fb,
    steps (step_down args run start_bps step_bps st lok) = steps st ++ fb /\
    Forall (fallback_record start_bps step_bps lok) fb /\
    Forall (fun s => fallback s = true) fb /\
    (length fb <= 1)%nat /\
    (length (calls st) + length fb
     <= length (calls (step_down args run start_bps step_bps st lok)))%nat /\
    (length (calls (step_down args run start_bps step_bps st lok))
     <= length (calls st) + 1)%nat.
Proof.
  destruct (PrimFloat.ltb (py_max start_bps (target_bps lok - step_bps)) (target_bps lok)) eqn:Hd.
  - destruct (probe args run (calls st)
                (bps_to_str (py_max start_bps (target_bps lok - step_bps))))
      as [[e c se|d c] cs] eqn:Hp; pose proof (probe_log_eq _ _ _ _ _ _ Hp) as ->.
    + rewrite (step_down_error _ _ _ _ _ _ _ _ _ _ Hd Hp). exists []. simpl.
      rewrite app_nil_r, length_app. simpl. repeat split; auto; lia.
    + rewrite (step_down_data _ _ _ _ _ _ _ _ _ Hd Hp).
      exists [retry_record args (py_max start_bps (target_bps lok - step_bps))
                (prev_throughput st) d c].
      assert (Hrec : fallback_record start_bps step_bps lok
                       (retry_record args (py_max start_bps (target_bps lok - step_bps))
                          (prev_throughput st) d c)).
      { split; [reflexivity|]. right. simpl. auto. }
      destruct (ok _); simpl; rewrite length_app; simpl;
        (split; [reflexivity|]);
        (split; [constructor; [exact Hrec|constructor]|]);
        (split; [constructor; [reflexivity|constructor]|]); lia.
  - rewrite (step_down_skip _ _ _ _ _ _ Hd). exists []. simpl. rewrite app_nil_r.
    repeat split; auto; lia.
Qed.

Lemma fallback_tail args run start_bps step_bps st lok :
  exists fb,
    steps (fallback_protocol args run start_bps step_bps st lok) = steps st ++ fb /\
    Forall (fallback_record start_bps step_bps lok) fb /\
    (length fb <= 2)%nat /\
    (length (calls st) + length fb
     <= length (calls (fallback_protocol args run start_bps step_bps st lok)))%nat /\
    (length (calls (fallback_protocol args run start_bps step_bps st lok))
     <= length (calls st) + 2)%nat.
Proof.
  destruct (probe args run (calls st) (bps_to_str (target_bps lok)))
    as [[e c se|d c] cs] eqn:Hp; pose proof (probe_log_eq _ _ _ _ _ _ Hp) as ->.
  - rewrite (fallback_error _ _ _ _ _ _ _ _ _ _ Hp).
    destruct (step_down_tail args run start_bps step_bps (with_calls (marked st)
                   (calls st ++ [probe_cmd args (bps_to_str (target_bps lok))])) lok)
      as (fb & -> & Hfb & _ & Hlen & Hlo & Hhi).
    simpl in *. rewrite length_app in Hlo, Hhi. simpl in *.
    exists fb. repeat split; auto; lia.
  - rewrite (fallback_data _ _ _ _ _ _ _ _ _ Hp).
    destruct (ok (confirm_record args lok (prev_throughput st) d c)).
    + eexists [_]. simpl. rewrite length_app. simpl.
      split; [reflexivity|]. split; [|lia].
      constructor; [|constructor]. split; [reflexivity|]. left. simpl. auto.
    + destruct (step_down_tail args run start_bps step_bps
                  (with_step (marked st) (confirm_record args lok (prev_throughput st) d c)
                     (calls st ++ [probe_cmd args (bps_to_str (target_bps lok))]))
                  lok) as (fb & -> & Hfb & _ & Hlen & Hlo & Hhi).
      simpl in *. rewrite length_app in Hlo, Hhi. simpl in *.
      eexists (_ :: fb). rewrite <- app_assoc. simpl.
      split; [reflexivity|]. split; [|lia].
      constructor; [|exact Hfb]. split; [reflexivity|]. left. simpl. auto.
Qed.

(** The ramp targets at any head of the loop, whatever the step. *)
Lemma reachable_ramp args run start_bps step_bps max_bps st :
  reachable args run start_bps step_bps max_bps st ->
  ramp_so_far start_bps step_bps max_bps (length (steps st)) st.
Proof.
  induction 1 as [|st st' Hr IH Hc Hb].
  - split; [reflexivity|reflexivity|intros j s Hj; discriminate].
  - destruct (body_continue _ _ _ _ _ _ Hb) as (data & c & cs & Hp & Hok).
    rewrite (body_accept _ _ _ _ _ _ _ _ Hp Hok) in Hb. simplify_eq.
    destruct IH as [_ Hcur Htg]. simpl.
    split; simpl.
    + reflexivity.
    + rewrite length_app. simpl. rewrite Nat.add_1_r. simpl. rewrite Hcur. reflexivity.
    + intros j s Hj. apply lookup_app_Some in Hj. destruct Hj as [Hj|[Hge Hj]]; [eauto|].
      destruct (j - length (steps st))%nat as [|d] eqn:Hd; [|destruct d; discriminate].
      assert (j = length (steps st)) by lia. subst j. simpl in Hj. injection Hj as <-.
      simpl. split; [exact Hcur | exact Hc].
Qed.

(** Probes issued against records kept. *)
Lemma probes_and_records args run start_bps step_bps max_bps fuel out :
  run_session args run start_bps step_bps max_bps fuel = Some out ->
  (length (steps out) <= length (calls out))%nat /\
  (length (calls out) <= length (steps out) + 2)%nat.
Proof.
  intros H. destruct (session_anatomy _ _ _ _ _ _ _ H) as (st & Hr & Hcase).
  pose proof (ramping_calls _ (reachable_ramping _ _ _ _ _ _ Hr)) as Hlen.
  destruct Hcase as [[-> _]|[(_ & e & c & se & cs & Hp & ->)|
    [(_ & d & c & cs & Hp & _ & _ & ->)|(_ & d & c & cs & lok & Hp & _ & _ & ->)]]].
  - lia.
  - simpl. rewrite (probe_log_eq _ _ _ _ _ _ Hp), !length_app. simpl. lia.
  - simpl. rewrite (probe_log_eq _ _ _ _ _ _ Hp), !length_app. simpl. lia.
  - destruct (fallback_tail args run start_bps step_bps (rejected args st d c cs) lok)
      as (fb & -> & _ & Hfb & Hlo & Hhi).
    pose proof (probe_log_eq _ _ _ _ _ _ Hp) as Hcs.
    simpl in Hlo, Hhi. rewrite Hcs in Hlo, Hhi |- *.
    rewrite ?length_app in *. simpl in *. rewrite ?length_app. simpl. lia.
Qed.

(** X3.  Every probe leaves at most one record, and at most two probes of a
    session (a failed confirm and a failed step-down) leave none. *)
Theorem records_never_exceed_probes args run start_bps step_bps max_bps fuel out :
  run_session args run start_bps step_bps max_bps fuel = Some out ->
  (length (steps out) <= length (calls out))%nat /\
  (length (calls out) <= length (steps out) + 2)%nat.
Proof. exact (probes_and_records args run start_bps step_bps max_bps fuel out). Qed.

Lemma records_never_exceed_probes_witness :
  match run_session (Fixture.args0 "2G" "2G" "10G")
          (Fixture.replay [Fixture.good; Fixture.good; Fixture.lossy])
          (Fixture.G 2) (Fixture.G 2) (Fixture.G 10) 10 with
  | Some out =>
      (length (steps out) <= length (calls out))%nat /\
      (length (calls out) <= length (steps out) + 2)%nat
  | None => False
  end.
Proof.
  destruct (run_session (Fixture.args0 "2G" "2G" "10G")
              (Fixture.replay [Fixture.good; Fixture.good; Fixture.lossy])
              (Fixture.G 2) (Fixture.G 2) (Fixture.G 10) 10)
    as [out|] eqn:H; [|vm_compute in H; discriminate].
  exact (records_never_exceed_probes _ _ _ _ _ _ _ H).
Defined.

(** X4.  The shape of the steps of any finished session, whatever the probes
    returned and whatever the step: the [n] records of the normal role come
    first, the [k]-th at the target accumulated in double precision from the
    start by [k] additions of the step, which the loop test found within
    [max + 1]; all of them but the last are accepted; at most two records
    follow. *)
Theorem ramp_records_come_first args run start_bps step_bps max_bps fuel out :
  run_session args run start_bps step_bps max_bps fuel = Some out ->
  exists n,
    (n <= length (steps out))%nat /\ (length (steps out) <= n + 2)%nat /\
    (forall k s, steps out !! k = Some s -> (normal_role s = true <-> (k < n)%nat)) /\
    (forall k s, steps out !! k = Some s -> (k < n)%nat ->
                 target_bps s = ramp_target start_bps step_bps k /\
                 (target_bps s <=? max_bps + 1)%float = true) /\
    (forall k s, steps out !! k = Some s -> (S k < n)%nat -> ok s = true).
Proof.
  intros H. destruct (session_anatomy _ _ _ _ _ _ _ H) as (st & Hr & Hcase).
  pose proof (reachable_ramping _ _ _ _ _ _ Hr) as [_ _ Hsteps _ _].
  pose proof (reachable_ramp _ _ _ _ _ _ Hr) as [_ Hcur Htg].
  rewrite Forall_lookup in Hsteps.
  assert (Hnormal : forall k s, steps st !! k = Some s -> normal_role s = true).
  { intros k s Hk. destruct (Hsteps k s Hk) as (_ & Hc & Hf).
    unfold normal_role. rewrite Hc, Hf. reflexivity. }
  (* the session stopped on the record [x] of a ramp probe, followed by [fb] *)
  assert (Hgen : forall x fb,
    loop_cond max_bps st = true -> normal_role x = true -> target_bps x = current st ->
    Forall (fun s => normal_role s = false) fb -> (length fb <= 2)%nat ->
    steps out = (steps st ++ [x]) ++ fb ->
    exists n,
      (n <= length (steps out))%nat /\ (length (steps out) <= n + 2)%nat /\
      (forall k s, steps out !! k = Some s -> (normal_role s = true <-> (k < n)%nat)) /\
      (forall k s, steps out !! k = Some s -> (k < n)%nat ->
                   target_bps s = ramp_target start_bps step_bps k /\
                   (target_bps s <=? max_bps + 1)%float = true) /\
      (forall k s, steps out !! k = Some s -> (S k < n)%nat -> ok s = true)).
  { intros x fb Hc Hx Hxt Hfb Hlen ->. exists (S (length (steps st))).
    rewrite Forall_lookup in Hfb.
    rewrite !length_app. simpl.
    assert (Hlook : forall k s,
      ((steps st ++ [x]) ++ fb) !! k = Some s ->
      ((k < length (steps st))%nat /\ steps st !! k = Some s) \/
      (k = length (steps st) /\ s = x) \/
      ((length (steps st) < k)%nat /\ normal_role s = false)).
    { intros k s Hk. apply lookup_app_Some in Hk. destruct Hk as [Hk|[Hge Hk]].
      - apply lookup_app_Some in Hk. destruct Hk as [Hk|[Hge Hk]].
        + left. split; [eapply lookup_lt_Some; eauto|exact Hk].
        + right; left.
          destruct (k - length (steps st))%nat as [|d] eqn:Hd; [|destruct d; discriminate].
          simpl in Hk. split; [lia|congruence].
      - right; right. rewrite length_app in Hge. simpl in Hge.
        split; [lia|]. eapply Hfb, Hk. }
    split; [lia|]. split; [lia|]. split; [|split].
    - intros k s Hk.
      destruct (Hlook k s Hk) as [[Hlt Hs]|[[-> ->]|[Hgt Hs]]].
      + rewrite (Hnormal k s Hs). split; [lia|auto].
      + rewrite Hx. split; [lia|auto].
      + rewrite Hs. split; [discriminate|lia].
    - intros k s Hk Hlt.
      destruct (Hlook k s Hk) as [[_ Hs]|[[-> ->]|[Hgt _]]]; [eauto| |lia].
      rewrite Hxt. split; [exact Hcur|exact Hc].
    - intros k s Hk Hlt.
      destruct (Hlook k s Hk) as [[_ Hs]|[[-> ->]|[Hgt _]]]; [|lia|lia].
      apply (Hsteps k s Hs). }
  destruct Hcase as [[-> _]|[(Hc & e & c & se & cs & Hp & ->)|
    [(Hc & d & c & cs & Hp & _ & _ & ->)|(Hc & d & c & cs & lok & Hp & _ & _ & Hout)]]].
  - exists (length (steps st)). split; [lia|]. split; [lia|]. split; [|split].
    + intros k s Hk. rewrite (Hnormal k s Hk).
      split; [intros _; eapply lookup_lt_Some; eauto|auto].
    + intros k s Hk _. eauto.
    + intros k s Hk _. apply (Hsteps k s Hk).
  - apply (Hgen (error_step st e c se) []); auto.
    simpl. rewrite app_nil_r. reflexivity.
  - apply (Hgen (ramp_step args st d c) []); auto.
    simpl. rewrite app_nil_r. reflexivity.
  - destruct (fallback_tail args run start_bps step_bps (rejected args st d c cs) lok)
      as (fb & Hfb & Hrec & Hlen & _).
    apply (Hgen (ramp_step args st d c) fb); auto.
    + eapply Forall_impl; [exact Hrec|].
      intros s (_ & [(Hcf & _)|(_ & Hf & _)]); unfold normal_role.
      * rewrite Hcf. reflexivity.
      * rewrite Hf. apply andb_false_r.
    + rewrite Hout, Hfb. reflexivity.
Qed.

Lemma ramp_records_come_first_witness :
  match run_session (Fixture.args0 "2G" "2G" "10G")
          (Fixture.replay
             [Fixture.good; Fixture.good; Fixture.lossy; Fixture.lossy; Fixture.good])
          (Fixture.G 2) (Fixture.G 2) (Fixture.G 10) 10 with
  | Some out =>
      exists n,
        (n <= length (steps out))%nat /\ (length (steps out) <= n + 2)%nat /\
        (forall k s, steps out !! k = Some s -> (normal_role s = true <-> (k < n)%nat)) /\
        (forall k s, steps out !! k = Some s -> (k < n)%nat ->
                     target_bps s = ramp_target (Fixture.G 2) (Fixture.G 2) k /\
                     (target_bps s <=? Fixture.G 10 + 1)%float = true) /\
        (forall k s, steps out !! k = Some s -> (S k < n)%nat -> ok s = true)
  | None => False
  end.
Proof.
  destruct (run_session (Fixture.args0 "2G" "2G" "10G")
              (Fixture.replay
                 [Fixture.good; Fixture.good; Fixture.lossy; Fixture.lossy; Fixture.good])
              (Fixture.G 2) (Fixture.G 2) (Fixture.G 10) 10)
    as [out|] eqn:H; [|vm_compute in H; discriminate].
  exact (ramp_records_come_first _ _ _ _ _ _ _ H).
Defined.

(** [x <= y] is false exactly when [y < x] or one of them is not a number. *)
Lemma leb_false x y :
  (x <=? y)%float = false <->
  (y <? x)%float = true \/ is_nan x = true \/ is_nan y = true.
Proof.
  rewrite FloatAxioms.ltb_spec, FloatAxioms.leb_spec, !is_nan_spec. unfold SFltb, SFleb.
  rewrite (SFcompare_swap (Prim2SF x) (Prim2SF y)).
  destruct (SFcompare (Prim2SF x) (Prim2SF y)) as [[| |]|] eqn:E; simpl.
  - split; [discriminate|]. intros [H|[H|H]]; [discriminate| |];
      rewrite H in E; [|destruct (Prim2SF x)]; discriminate.
  - split; [discriminate|]. intros [H|[H|H]]; [discriminate| |];
      rewrite H in E; [|destruct (Prim2SF x)]; discriminate.
  - split; auto.
  - apply SFcompare_none in E. split; [|reflexivity]. intros _. right. tauto.
Qed.

(** A step-down target below some rate is not below the start. *)
Lemma py_max_ge a b c :
  (py_max a b <? c)%float = true -> (a <=? py_max a b)%float = true.
Proof.
  unfold py_max. destruct (a <? b)%float eqn:E; [intros _; apply ltb_leb, E|].
  intros H. apply ltb_leb in H. eapply leb_refl_left, H.
Qed.

(** X5.  The fallback never probes above the ramp: in a finished session a
    confirm record is at the target of an accepted ramp record, and a fallback
    record is strictly below the target of an accepted ramp record and not
    below the start. *)
Theorem fallback_targets_stay_below args run start_bps step_bps max_bps fuel out :
  run_session args run start_bps step_bps max_bps fuel = Some out ->
  forall s, In s (steps out) -> normal_role s = false ->
    exists lok,
      In lok (steps out) /\ normal_role lok = true /\ ok lok = true /\
      ((confirm s = true /\ fallback s = false /\ target_bps s = target_bps lok) \/
       (confirm s = false /\ fallback s = true /\
        (start_bps <=? target_bps s)%float = true /\
        (target_bps s <? target_bps lok)%float = true)).
Proof.
  intros H s Hin Hrole.
  destruct (session_anatomy _ _ _ _ _ _ _ H) as (st & Hr & Hcase).
  pose proof (reachable_ramping _ _ _ _ _ _ Hr) as [_ _ Hsteps Hlast _].
  rewrite Forall_forall in Hsteps.
  assert (Hnormal : forall x, In x (steps st) -> normal_role x = true /\ ok x = true).
  { intros x Hx. apply list_elem_of_In in Hx. destruct (Hsteps x Hx) as (Hok & Hc & Hf).
    unfold normal_role. rewrite Hc, Hf. auto. }
  destruct Hcase as [[-> _]|[(_ & e & c & se & cs & Hp & ->)|
    [(_ & d & c & cs & Hp & _ & _ & ->)|(_ & d & c & cs & lok & Hp & _ & Hl & ->)]]].
  - destruct (Hnormal s Hin). congruence.
  - simpl in Hin. apply in_app_or in Hin. destruct Hin as [Hin|[<-|[]]].
    + destruct (Hnormal s Hin). congruence.
    + discriminate.
  - simpl in Hin. apply in_app_or in Hin. destruct Hin as [Hin|[<-|[]]].
    + destruct (Hnormal s Hin). congruence.
    + discriminate.
  - destruct (fallback_tail args run start_bps step_bps (rejected args st d c cs) lok)
      as (fb & Hfb & Hrec & _).
    rewrite Hfb in Hin |- *. simpl in Hin |- *.
    assert (Hlok : In lok (steps st)).
    { rewrite Hlast in Hl. apply list_elem_of_In. eapply last_Some_elem_of. exact Hl. }
    apply in_app_or in Hin. destruct Hin as [Hin|Hin].
    + apply in_app_or in Hin. destruct Hin as [Hin|[<-|[]]]; [|discriminate].
      destruct (Hnormal s Hin). congruence.
    + exists lok. destruct (Hnormal lok Hlok) as [Hn Hok].
      split; [apply in_or_app; left; apply in_or_app; left; exact Hlok|].
      split; [exact Hn|]. split; [exact Hok|].
      rewrite List.Forall_forall in Hrec.
      destruct (Hrec s Hin) as (_ & [(Hc & Hf & Ht)|(Hc & Hf & Ht & Hlt)]); [left; auto|].
      right. split; [exact Hc|]. split; [exact Hf|].
      split; [rewrite Ht in Hlt |- *; eapply py_max_ge, Hlt|exact Hlt].
Qed.

Lemma fallback_targets_stay_below_witness :
  match run_session (Fixture.args0 "2G" "2G" "10G")
          (Fixture.replay
             [Fixture.good; Fixture.good; Fixture.lossy; Fixture.lossy; Fixture.good])
          (Fixture.G 2) (Fixture.G 2) (Fixture.G 10) 10 with
  | Some out =>
      match steps out !! 4%nat with
      | Some s =>
          exists lok,
            In lok (steps out) /\ normal_role lok = true /\ ok lok = true /\
            ((confirm s = true /\ fallback s = false /\ target_bps s = target_bps lok) \/
             (confirm s = false /\ fallback s = true /\
              (Fixture.G 2 <=? target_bps s)%float = true /\
              (target_bps s <? target_bps lok)%float = true))
      | None => False
      end
  | None => False
  end.
Proof.
  destruct (run_session (Fixture.args0 "2G" "2G" "10G")
              (Fixture.replay
                 [Fixture.good; Fixture.good; Fixture.lossy; Fixture.lossy; Fixture.good])
              (Fixture.G 2) (Fixture.G 2) (Fixture.G 10) 10)
    as [out|] eqn:H; [|vm_compute in H; discriminate H].
  destruct (steps out !! 4%nat) as [s|] eqn:Hs.
  - apply (fallback_targets_stay_below _ _ _ _ _ _ _ H s).
    + apply list_elem_of_In. eapply list_elem_of_lookup_2. exact Hs.
    + vm_compute in H. injection H as <-. vm_compute in Hs. injection Hs as <-.
      reflexivity.
  - vm_compute in H. injection H as <-. vm_compute in Hs. discriminate Hs.
Defined.

Lemma last_accepted_snoc l x :
  last_accepted (l ++ [x]) = if ok x then Some x else last_accepted l.
Proof.
  unfold last_accepted. rewrite List.filter_app. simpl.
  destruct (ok x); [apply last_snoc|rewrite app_nil_r; reflexivity].
Qed.

Section LatestAccepted.

Variable args : Args.t.
Variable run : subprocess.
Variables start_bps step_bps max_bps : float.

Lemma step_down_latest st lok :
  selects_latest st -> selects_latest (step_down args run start_bps step_bps st lok).
Proof.
  unfold selects_latest. intros H.
  destruct (PrimFloat.ltb (py_max start_bps (target_bps lok - step_bps)) (target_bps lok)) eqn:Hd.
  - destruct (probe args run (calls st)
                (bps_to_str (py_max start_bps (target_bps lok - step_bps))))
      as [[e c se|d c] cs] eqn:Hp.
    + rewrite (step_down_error _ _ _ _ _ _ _ _ _ _ Hd Hp). exact H.
    + rewrite (step_down_data _ _ _ _ _ _ _ _ _ Hd Hp).
      destruct (ok _) eqn:Hok; simpl; rewrite last_accepted_snoc, Hok; auto.
  - rewrite (step_down_skip _ _ _ _ _ _ Hd). exact H.
Qed.

Lemma fallback_latest st lok :
  selects_latest st -> selects_latest (fallback_protocol args run start_bps step_bps st lok).
Proof.
  intros H.
  destruct (probe args run (calls st) (bps_to_str (target_bps lok)))
    as [[e c se|d c] cs] eqn:Hp.
  - rewrite (fallback_error _ _ _ _ _ _ _ _ _ _ Hp). apply step_down_latest. exact H.
  - rewrite (fallback_data _ _ _ _ _ _ _ _ _ Hp).
    destruct (ok _) eqn:Hok.
    + unfold selects_latest. simpl. rewrite last_accepted_snoc, Hok. reflexivity.
    + apply step_down_latest. unfold selects_latest. simpl.
      rewrite last_accepted_snoc, Hok. exact H.
Qed.

Lemma body_latest st :
  selects_latest st -> selects_latest (fst (loop_body args run start_bps step_bps st)).
Proof.
  intros H.
  destruct (body_cases args run st)
    as [(e & c & se & cs & Hp)|[(d & c & cs & Hp & Hc)|(d & c & cs & Hp & Hc)]].
  - rewrite (body_error _ _ _ _ _ _ _ _ _ Hp). unfold selects_latest. simpl.
    rewrite last_accepted_snoc. exact H.
  - rewrite (body_accept _ _ _ _ _ _ _ _ Hp Hc). unfold selects_latest. simpl.
    rewrite last_accepted_snoc. simpl. rewrite Hc. reflexivity.
  - rewrite (body_reject _ _ _ _ _ _ _ _ Hp Hc). simpl.
    assert (Hrej : selects_latest (rejected args st d c cs)).
    { unfold selects_latest. simpl. rewrite last_accepted_snoc. simpl. rewrite Hc. exact H. }
    destruct (last_ok st); [destruct (negb (fallback_attempted st))|]; auto.
    apply fallback_latest, Hrej.
Qed.

Lemma loop_latest fuel st out :
  selects_latest st ->
  while_loop args run start_bps step_bps max_bps fuel st = Some out -> selects_latest out.
Proof.
  revert st. induction fuel as [|fuel IH]; intros st Hs H; [discriminate|].
  simpl in H. destruct (loop_cond max_bps st).
  - pose proof (body_latest st Hs) as Hb.
    destruct (loop_body args run start_bps step_bps st) as [st' []]; simpl in Hb.
    + eapply IH; eauto.
    + simplify_eq. exact Hb.
  - simplify_eq. exact Hs.
Qed.

End LatestAccepted.

(** X6.  The selection written by [main] is the LATEST accepted record of the
    steps written with it: no accepted record comes after it, and it is absent
    exactly when no record is accepted. *)
Theorem selected_is_the_latest_accepted fuel args run ts path o :
  main fuel args run ts = Some (Written path o) ->
  o_selected o = last (List.filter ok (o_steps o)).
Proof.
  intros H.
  destruct (main_written _ _ _ _ _ _ H)
    as (a & b & c & st & m & _ & _ & _ & Hrun & _ & _ & Hs & Hsel & _).
  rewrite Hs, Hsel. eapply loop_latest; [|exact Hrun]. reflexivity.
Qed.

Lemma selected_is_the_latest_accepted_witness :
  match main 10 (Fixture.args0 "2G" "2G" "10G")
          (Fixture.replay [Fixture.good; Fixture.good; Fixture.lossy; Fixture.good]) "t" with
  | Some (Written _ o) => o_selected o = last (List.filter ok (o_steps o))
  | _ => False
  end.
Proof.
  destruct (main 10 (Fixture.args0 "2G" "2G" "10G")
              (Fixture.replay [Fixture.good; Fixture.good; Fixture.lossy; Fixture.good]) "t")
    as [[msg| |path o]|] eqn:H; try (vm_compute in H; discriminate H).
  exact (selected_is_the_latest_accepted _ _ _ _ _ _ H).
Defined.

(** How a finished session can end, with the role of its selection. *)

Lemma session_outcome args run start_bps step_bps max_bps fuel out :
  run_session args run start_bps step_bps max_bps fuel = Some out ->
  (stop_reason out = "max_reached" /\ selection_is_normal out /\
   Forall (fun s => ok s = true) (steps out)) \/
  ((error_kind (stop_reason out) \/ threshold_reason (stop_reason out)) /\
   selection_is_normal out /\ exists s, In s (steps out) /\ ok s = false) \/
  ((exists base, threshold_reason base /\
                 stop_reason out = base +:+ "_fallback_confirmed") /\
   (exists s, last_ok out = Some s /\ confirm s = true /\ fallback s = false) /\
   exists s, In s (steps out) /\ ok s = false) \/
  ((exists base, threshold_reason base /\
                 stop_reason out = base +:+ "_fallback_stepdown") /\
   (exists s, last_ok out = Some s /\ confirm s = false /\ fallback s = true) /\
   exists s, In s (steps out) /\ ok s = false).
Proof.
  intros H. destruct (session_anatomy _ _ _ _ _ _ _ H) as (st & Hr & Hcase).
  pose proof (reachable_ramping _ _ _ _ _ _ Hr) as [Hflag Hreason Hsteps Hlast _].
  assert (Hsel : selection_is_normal st).
  { intros s Hs. rewrite Hlast in Hs. apply last_Some_elem_of in Hs.
    rewrite Forall_forall in Hsteps. destruct (Hsteps s Hs) as (_ & Hc & Hf).
    unfold normal_role. rewrite Hc, Hf. reflexivity. }
  destruct Hcase as [[-> _]|[(_ & e & c & se & cs & Hp & ->)|
    [(_ & d & c & cs & Hp & Hk & Hl & ->)|(Hc & d & c & cs & lok & Hp & Hk & Hl & ->)]]].
  - left. split; [exact Hreason|]. split; [exact Hsel|].
    eapply Forall_impl; [exact Hsteps|]. intros s (Hok & _). exact Hok.
  - right; left. split; [left; simpl; eapply probe_error_kind, Hp|].
    split; [exact Hsel|]. eexists. split; [simpl; apply in_or_app; right; left; reflexivity|].
    reflexivity.
  - right; left. split; [right; simpl; apply ramp_check_fail, Hk|].
    split; [intros s Hs; simpl in Hs; congruence|].
    exists (ramp_step args st d c).
    split; [simpl; apply in_or_app; right; left; reflexivity|exact Hk].
  - assert (Hbad : exists s,
        In s (steps (fallback_protocol args run start_bps step_bps
                       (rejected args st d c cs) lok)) /\ ok s = false).
    { destruct (fallback_steps args run start_bps step_bps (rejected args st d c cs) lok)
        as [more ->].
      exists (ramp_step args st d c). split; [|exact Hk].
      simpl. apply in_or_app. left. apply in_or_app. right. left. reflexivity. }
    destruct (fallback_outcome args run start_bps step_bps max_bps st lok d c cs
                Hr Hc Hl Hp Hk) as (out & Hout & _ & _ & Hcases).
    pose proof (Hout O) as H1.
    rewrite (loop_break _ _ _ _ _ _ _ _ Hc (body_reject _ _ _ _ _ _ _ _ Hp Hk)) in H1.
    rewrite Hl, Hflag in H1. simpl in H1. injection H1 as <-.
    pose proof (last_violation_threshold args (extract_udp_stats d) (prev_throughput st))
      as Hth.
    assert (Hsok : selected_ok (fallback_protocol args run start_bps step_bps
                                  (rejected args st d c cs) lok)).
    { eapply loop_selected; [|exact H]. intros x Hx. discriminate. }
    assert (Hroles : forall s,
        In s (steps (fallback_protocol args run start_bps step_bps
                       (rejected args st d c cs) lok)) ->
        normal_role s = true \/ (confirm s = true /\ fallback s = false) \/
        (confirm s = false /\ fallback s = true)).
    { destruct (fallback_tail args run start_bps step_bps (rejected args st d c cs) lok)
        as (fb & -> & Hrec & _).
      intros s Hin. simpl in Hin. apply in_app_or in Hin. destruct Hin as [Hin|Hin].
      - left. apply in_app_or in Hin. destruct Hin as [Hin|[<-|[]]]; [|reflexivity].
        rewrite Forall_forall in Hsteps. apply list_elem_of_In in Hin.
        destruct (Hsteps s Hin) as (_ & Hc' & Hf'). unfold normal_role.
        rewrite Hc', Hf'. reflexivity.
      - right. rewrite List.Forall_forall in Hrec.
        destruct (Hrec s Hin) as (_ & [(Hc' & Hf' & _)|(Hc' & Hf' & _)]); auto. }
    destruct Hcases as [(_ & _ & (s & Hs & _ & Hcf & _) & Hsr)|
      [(_ & _ & _ & [(_ & (s & Hs & _ & Hfb & _) & Hsr)|(_ & Hlo & Hsr)])|
       (_ & _ & _ & Hlo & Hsr)]].
    + right; right; left. split; [eauto|]. split; [|exact Hbad].
      exists s. split; [exact Hs|]. split; [exact Hcf|].
      destruct (Hroles s (proj1 (Hsok s Hs))) as [Hn|[(_ & Hf)|(Hc' & _)]];
        [|exact Hf|congruence].
      unfold normal_role in Hn. rewrite Hcf in Hn. discriminate.
    + right; right; right. split; [eauto|]. split; [|exact Hbad].
      exists s. split; [exact Hs|]. split; [|exact Hfb].
      destruct (Hroles s (proj1 (Hsok s Hs))) as [Hn|[(_ & Hf)|(Hc' & _)]];
        [|congruence|exact Hc'].
      unfold normal_role in Hn. rewrite Hfb, andb_false_r in Hn. discriminate.
    + right; left. rewrite Hsr. split; [right; exact Hth|]. split; [|exact Hbad].
      intros s Hs. rewrite Hlo in Hs. injection Hs as <-. apply Hsel, Hl.
    + right; left. rewrite Hsr. split; [right; exact Hth|]. split; [|exact Hbad].
      intros s Hs. rewrite Hlo in Hs. injection Hs as <-. apply Hsel, Hl.
Qed.

Ltac threshold_cases :=
  repeat match goal with
    | H : threshold_reason _ |- _ => destruct H as [->|[->| ->]]
    | H : error_kind _ |- _ => destruct H as [->|[->|(? & _ & ->)]]
    end;
  simpl in *; try discriminate.

Lemma plain_not_suffixed r :
  r = "max_reached" \/ error_kind r \/ threshold_reason r ->
  ~ confirmed_reason r /\ ~ stepdown_reason r.
Proof.
  intros H. split; intros (base & Hb & Hr); destruct H as [->|[H|H]]; threshold_cases.
Qed.

Lemma confirmed_not_stepdown r : confirmed_reason r -> ~ stepdown_reason r.
Proof. intros (b & Hb & ->) (b' & Hb' & Hr). threshold_cases. Qed.

Lemma suffixed_not_max r : confirmed_reason r \/ stepdown_reason r -> r <> "max_reached".
Proof. intros [(b & Hb & ->)|(b & Hb & ->)]; threshold_cases. Qed.

Lemma max_reached_is_no_failure :
  ~ (error_kind "max_reached" \/ threshold_reason "max_reached").
Proof.
  intros [[H|[H|(rc & _ & H)]]|[H|[H|H]]]; discriminate.
Qed.

Lemma main_outcome fuel args run ts path o :
  main fuel args run ts = Some (Written path o) ->
  exists start_bps step_bps max_bps st,
    run_session args run start_bps step_bps max_bps fuel = Some st /\
    o_steps o = steps st /\ o_selected o = last_ok st /\ o_stop_reason o = stop_reason st.
Proof.
  intros H.
  destruct (main_written _ _ _ _ _ _ H)
    as (a & b & c & st & m & _ & _ & _ & Hrun & _ & _ & Hs & Hsel & Hr).
  exists a, b, c, st. auto.
Qed.

(** X7.  The suffix of the stop reason names the role of the selection: the
    selection is a confirm record exactly when the stop reason is a threshold
    reason followed by [_fallback_confirmed], a fallback record exactly when
    it is followed by [_fallback_stepdown], and otherwise it is absent or a
    record of the ramp. *)
Theorem stop_suffix_names_selected_role fuel args run ts path o :
  main fuel args run ts = Some (Written path o) ->
  ((exists s, o_selected o = Some s /\ confirm s = true) <->
   exists base, (base = "loss_threshold" \/ base = "jitter_threshold" \/
                 base = "throughput_drop") /\
                o_stop_reason o = base +:+ "_fallback_confirmed") /\
  ((exists s, o_selected o = Some s /\ fallback s = true) <->
   exists base, (base = "loss_threshold" \/ base = "jitter_threshold" \/
                 base = "throughput_drop") /\
                o_stop_reason o = base +:+ "_fallback_stepdown").
Proof.
  intros H. destruct (main_outcome _ _ _ _ _ _ H) as (a & b & c & st & Hrun & _ & -> & ->).
  change (((exists s, last_ok st = Some s /\ confirm s = true)
           <-> confirmed_reason (stop_reason st)) /\
          ((exists s, last_ok st = Some s /\ fallback s = true)
           <-> stepdown_reason (stop_reason st))).
  assert (Hplain : selection_is_normal st ->
                   ~ (exists s, last_ok st = Some s /\ confirm s = true) /\
                   ~ (exists s, last_ok st = Some s /\ fallback s = true)).
  { intros Hn. split; intros (s & Hs & Hrole); specialize (Hn s Hs);
      unfold normal_role in Hn; rewrite Hrole in Hn;
      rewrite ?andb_false_r in Hn; discriminate. }
  destruct (session_outcome _ _ _ _ _ _ _ Hrun)
    as [(Hr & Hn & _)|[(Hr & Hn & _)|[(Hr & (s & Hs & Hc & Hf) & _)|
                                       (Hr & (s & Hs & Hc & Hf) & _)]]].
  - destruct (Hplain Hn) as [H1 H2].
    destruct (plain_not_suffixed (stop_reason st)) as [H3 H4]; [auto|]. tauto.
  - destruct (Hplain Hn) as [H1 H2].
    destruct (plain_not_suffixed (stop_reason st)) as [H3 H4]; [tauto|]. tauto.
  - pose proof (confirmed_not_stepdown _ Hr) as Hns. split; split.
    + intros _. exact Hr.
    + intros _. eauto.
    + intros (s' & Hs' & Hf'). congruence.
    + tauto.
  - assert (Hnc : ~ confirmed_reason (stop_reason st))
      by (intros Hcr; exact (confirmed_not_stepdown _ Hcr Hr)).
    split; split.
    + intros (s' & Hs' & Hc'). congruence.
    + tauto.
    + intros _. exact Hr.
    + intros _. eauto.
Qed.

Lemma stop_suffix_names_selected_role_witness :
  match main 10 (Fixture.args0 "2G" "2G" "10G")
          (Fixture.replay
             [Fixture.good; Fixture.good; Fixture.lossy; Fixture.lossy; Fixture.good]) "t" with
  | Some (Written _ o) =>
      ((exists s, o_selected o = Some s /\ confirm s = true) <->
       exists base, (base = "loss_threshold" \/ base = "jitter_threshold" \/
                     base = "throughput_drop") /\
                    o_stop_reason o = base +:+ "_fallback_confirmed") /\
      ((exists s, o_selected o = Some s /\ fallback s = true) <->
       exists base, (base = "loss_threshold" \/ base = "jitter_threshold" \/
                     base = "throughput_drop") /\
                    o_stop_reason o = base +:+ "_fallback_stepdown")
  | _ => False
  end.
Proof.
  destruct (main 10 (Fixture.args0 "2G" "2G" "10G")
              (Fixture.replay
                 [Fixture.good; Fixture.good; Fixture.lossy; Fixture.lossy; Fixture.good]) "t")
    as [[msg| |path o]|] eqn:H; try (vm_compute in H; discriminate H).
  exact (stop_suffix_names_selected_role _ _ _ _ _ _ H).
Defined.

(** X8.  The stop reason is [max_reached] exactly when every recorded step was
    accepted, that is when the ramp ran past [max + 1] without a rejected or
    failed probe. *)
Theorem max_reached_iff_all_accepted fuel args run ts path o :
  main fuel args run ts = Some (Written path o) ->
  (o_stop_reason o = "max_reached" <-> forallb ok (o_steps o) = true).
Proof.
  intros H. destruct (main_outcome _ _ _ _ _ _ H) as (a & b & c & st & Hrun & -> & _ & ->).
  rewrite forallb_forall.
  destruct (session_outcome _ _ _ _ _ _ _ Hrun)
    as [(Hr & _ & Hall)|[(Hr & _ & (s & Hin & Hs))|[(Hr & _ & (s & Hin & Hs))|
                                                    (Hr & _ & (s & Hin & Hs))]]].
  - split; [|auto]. intros _ x Hx. rewrite List.Forall_forall in Hall. auto.
  - split.
    + intros Hm. exfalso. rewrite Hm in Hr. exact (max_reached_is_no_failure Hr).
    + intros Hall. rewrite (Hall s Hin) in Hs. discriminate.
  - split.
    + intros Hm. exfalso. apply (suffixed_not_max (stop_reason st)); auto.
    + intros Hall. rewrite (Hall s Hin) in Hs. discriminate.
  - split.
    + intros Hm. exfalso. apply (suffixed_not_max (stop_reason st)); auto.
    + intros Hall. rewrite (Hall s Hin) in Hs. discriminate.
Qed.

Lemma max_reached_iff_all_accepted_witness :
  match main 10 (Fixture.args0 "2G" "2G" "10G") (Fixture.always Fixture.good) "t" with
  | Some (Written _ o) =>
      o_stop_reason o = "max_reached" <-> forallb ok (o_steps o) = true
  | _ => False
  end.
Proof.
  destruct (main 10 (Fixture.args0 "2G" "2G" "10G") (Fixture.always Fixture.good) "t")
    as [[msg| |path o]|] eqn:H; try (vm_compute in H; discriminate H).
  exact (max_reached_iff_all_accepted _ _ _ _ _ _ H).
Defined.

(** X9.  No probe is issued exactly when the loop test [start <= max + 1]
    fails before the first turn, that is when the start is above the rounded
    [max + 1] or one of the two is not a number; the session then has no step
    and no selection and stops with [max_reached].  Otherwise at least the
    first probe is issued and recorded. *)
Theorem no_probe_iff_start_beyond_max args run start_bps step_bps max_bps fuel out :
  run_session args run start_bps step_bps max_bps fuel = Some out ->
  (calls out = [] <-> (start_bps <=? max_bps + 1)%float = false) /\
  (steps out = [] <-> (start_bps <=? max_bps + 1)%float = false) /\
  ((start_bps <=? max_bps + 1)%float = false ->
   last_ok out = None /\ stop_reason out = "max_reached") /\
  ((start_bps <=? max_bps + 1)%float = false <->
   (max_bps + 1 <? start_bps)%float = true \/ is_nan start_bps = true \/
   is_nan (max_bps + 1)%float = true).
Proof.
  intros H.
  assert (Hpast : (start_bps <=? max_bps + 1)%float = false -> out = initial start_bps).
  { intros Hlt. unfold run_session in H. destruct fuel as [|fuel]; [discriminate|].
    rewrite loop_stop in H by exact Hlt. congruence. }
  assert (Hempty : steps out = [] -> (start_bps <=? max_bps + 1)%float = false).
  { intros Hs. destruct (session_anatomy _ _ _ _ _ _ _ H) as (st & Hr & Hcase).
    destruct Hcase as [[-> Hc]|[(_ & e & c & se & cs & Hp & ->)|
      [(_ & d & c & cs & Hp & _ & _ & ->)|(_ & d & c & cs & lok & Hp & _ & _ & ->)]]].
    - destruct (reachable_ramp _ _ _ _ _ _ Hr) as [_ Hcur _].
      rewrite Hs in Hcur. simpl in Hcur. unfold loop_cond in Hc. rewrite Hcur in Hc.
      exact Hc.
    - simpl in Hs. destruct (steps st); discriminate.
    - simpl in Hs. destruct (steps st); discriminate.
    - destruct (fallback_steps args run start_bps step_bps (rejected args st d c cs) lok)
        as [more Hm].
      rewrite Hm in Hs. simpl in Hs. destruct (steps st); discriminate. }
  split; [|split; [|split]].
  - split; [|intros Hlt; rewrite (Hpast Hlt); reflexivity].
    intros Hc. apply Hempty.
    destruct (probes_and_records _ _ _ _ _ _ _ H) as [Hle _].
    rewrite Hc in Hle. simpl in Hle. destruct (steps out); [reflexivity|simpl in Hle; lia].
  - split; [exact Hempty|]. intros Hlt. rewrite (Hpast Hlt). reflexivity.
  - intros Hlt. rewrite (Hpast Hlt). auto.
  - apply leb_false.
Qed.

Lemma no_probe_iff_start_beyond_max_witness :
  match run_session (Fixture.args0 "12G" "2G" "10G") (Fixture.always Fixture.good)
          (Fixture.G 12) (Fixture.G 2) (Fixture.G 10) 10 with
  | Some out => calls out = [] /\ steps out = [] /\ stop_reason out = "max_reached"
  | None => False
  end.
Proof.
  destruct (run_session (Fixture.args0 "12G" "2G" "10G") (Fixture.always Fixture.good)
              (Fixture.G 12) (Fixture.G 2) (Fixture.G 10) 10)
    as [out|] eqn:H; [|vm_compute in H; discriminate H].
  destruct (no_probe_iff_start_beyond_max _ _ _ _ _ _ _ H) as (Hc & Hs & Hl & _).
  assert (Hb : (Fixture.G 12 <=? Fixture.G 10 + 1)%float = false)
    by (vm_compute; reflexivity).
  split; [apply Hc, Hb|]. split; [apply Hs, Hb|apply Hl, Hb].
Defined.

(** X10.  At every head of the loop the drop baseline is the throughput of
    the most recent accepted step that reported a throughput; accepted steps
    without a throughput reading are skipped, and there is no baseline before
    the first reading. *)
Theorem baseline_is_latest_reported_throughput args run start_bps step_bps max_bps st :
  reachable args run start_bps step_bps max_bps st ->
  prev_throughput st = latest_throughput (steps st).
Proof.
  induction 1 as [|st st' Hr IH Hc Hb]; [reflexivity|].
  destruct (body_continue _ _ _ _ _ _ Hb) as (data & c & cs & Hp & Hok).
  rewrite (body_accept _ _ _ _ _ _ _ _ Hp Hok) in Hb. simplify_eq. simpl.
  unfold latest_throughput in *. rewrite fold_left_app. simpl. rewrite <- IH.
  reflexivity.
Qed.

Lemma baseline_is_latest_reported_throughput_witness :
  let args := Fixture.args0 "2G" "2G" "10G" in
  let run :=
    Fixture.always
      (Fixture.measured (Some 1.9e9%float) (Some 1%float)
         (Some 0x1.999999999999ap-4%float)) in
  let st1 := fst (loop_body args run (Fixture.G 2) (Fixture.G 2) (initial (Fixture.G 2))) in
  prev_throughput st1 = Some 1.9e9%float /\
  prev_throughput st1 = latest_throughput (steps st1).
Proof.
  intros args run st1. split; [vm_compute; reflexivity|].
  apply (baseline_is_latest_reported_throughput args run (Fixture.G 2) (Fixture.G 2)
           (Fixture.G 10) st1).
  apply (reach_turn args run (Fixture.G 2) (Fixture.G 2) (Fixture.G 10)
           (initial (Fixture.G 2)) st1 (reach_initial _ _ _ _ _)).
  - vm_compute. reflexivity.
  - vm_compute. reflexivity.
Defined.

(** ** Termination *)

(** From the [k]-th accumulated target the loop is left within the turns
    that remain before the target that fails the loop test, whatever the
    probes return. *)
Lemma turns_left_terminate args run start_bps step_bps max_bps n :
  (ramp_target start_bps step_bps n <=? max_bps + 1)%float = false ->
  forall m k st,
    (k + m = n)%nat ->
    current st = ramp_target start_bps step_bps k ->
    exists out,
      forall fuel, (m < fuel)%nat ->
                   while_loop args run start_bps step_bps max_bps fuel st = Some out.
Proof.
  intros Hout. induction m as [|m IH]; intros k st Hkm Hcur.
  - assert (k = n) by lia. subst k.
    exists st. intros [|fuel] Hf; [lia|]. apply loop_stop.
    unfold loop_cond. rewrite Hcur. exact Hout.
  - destruct (loop_cond max_bps st) eqn:Hc.
    + destruct (body_cases args run st)
        as [(e & c & se & cs & Hp)|[(d & c & cs & Hp & Hk)|(d & c & cs & Hp & Hk)]].
      * eexists. intros [|fuel] Hf; [lia|].
        apply loop_break; [exact Hc|]. apply (body_error _ _ _ _ _ _ _ _ _ Hp).
      * pose proof (body_accept _ _ start_bps step_bps _ _ _ _ Hp Hk) as Hb.
        destruct (IH (S k) (fst (loop_body args run start_bps step_bps st))) as [out Hrun].
        { lia. }
        { rewrite Hb. simpl. rewrite Hcur. reflexivity. }
        exists out. intros [|fuel] Hf; [lia|]. simpl. rewrite Hc, Hb.
        rewrite Hb in Hrun. apply Hrun. lia.
      * eexists. intros [|fuel] Hf; [lia|].
        apply loop_break; [exact Hc|]. apply (body_reject _ _ _ _ _ _ _ _ Hp Hk).
    + exists st. intros [|fuel] Hf; [lia|]. apply loop_stop, Hc.
Qed.

(** X20.  A session ends, whatever the probes return, as soon as the target
    accumulated in double precision comes to fail the loop test: if the
    [n]-th accumulated target is not within [max + 1], the loop is left after
    at most [n] turns, with the same result for any larger bound on the
    turns.  With start 2G, step 2G and max 10G that is after at most five
    turns. *)
Theorem ramp_past_max_always_terminates :
  (forall args run start_bps step_bps max_bps n,
      (ramp_target start_bps step_bps n <=? max_bps + 1)%float = false ->
      exists out,
        forall fuel, (n < fuel)%nat ->
                     run_session args run start_bps step_bps max_bps fuel = Some out) /\
  (forall args run,
      exists out,
        (forall fuel, (5 < fuel)%nat -> run_session args run 2e9 2e9 10e9 fuel = Some out) /\
        (length (calls out) <= 7)%nat).
Proof.
  assert (Hgen : forall args run start_bps step_bps max_bps n,
      (ramp_target start_bps step_bps n <=? max_bps + 1)%float = false ->
      exists out,
        forall fuel, (n < fuel)%nat ->
                     run_session args run start_bps step_bps max_bps fuel = Some out).
  { intros args run start_bps step_bps max_bps n Hout. unfold run_session.
    apply (turns_left_terminate args run start_bps step_bps max_bps n Hout n O);
      [reflexivity|reflexivity]. }
  split; [exact Hgen|].
  intros args run.
  destruct (Hgen args run 2e9 2e9 10e9 5%nat)%float as [out Hout];
    [vm_compute; reflexivity|].
  exists out. split; [exact Hout|].
  pose proof (Hout 6%nat (Nat.lt_succ_diag_r 5)) as H6.
  destruct (session_anatomy _ _ _ _ _ _ _ H6) as (st & Hr & Hcase).
  pose proof (reachable_ramp _ _ _ _ _ _ Hr) as [_ Hcur Htg].
  assert (Hlen : (length (steps st) <= 5)%nat).
  { destruct (le_lt_dec (length (steps st)) 5) as [Hle|Hgt]; [exact Hle|exfalso].
    destruct (lookup_lt_is_Some_2 (steps st) 5 Hgt) as [s Hs].
    destruct (Htg 5%nat s Hs) as [Ht Hb]. rewrite Ht in Hb. vm_compute in Hb. discriminate Hb. }
  pose proof (ramping_calls _ (reachable_ramping _ _ _ _ _ _ Hr)) as Hcalls.
  assert (Hfive : loop_cond 10e9 st = true -> length (steps st) <> 5%nat).
  { intros Hc E. unfold loop_cond in Hc. rewrite Hcur, E in Hc.
    vm_compute in Hc. discriminate Hc. }
  destruct Hcase as [[-> Hc]|[(Hc & e & c & se & cs & Hp & ->)|
    [(Hc & d & c & cs & Hp & _ & _ & ->)|(Hc & d & c & cs & lok & Hp & _ & _ & Hfb)]]].
  - lia.
  - specialize (Hfive Hc). simpl.
    rewrite (probe_log_eq _ _ _ _ _ _ Hp), length_app. simpl. lia.
  - specialize (Hfive Hc). simpl.
    rewrite (probe_log_eq _ _ _ _ _ _ Hp), length_app. simpl. lia.
  - specialize (Hfive Hc).
    destruct (fallback_tail args run 2e9 2e9 (rejected args st d c cs) lok)%float
      as (fb & _ & _ & _ & _ & Hhi').
    rewrite <- Hfb in Hhi'. simpl in Hhi'.
    rewrite (probe_log_eq _ _ _ _ _ _ Hp), length_app in Hhi'. simpl in Hhi'. lia.
Qed.

Lemma ramp_past_max_always_terminates_witness :
  let args := Fixture.args0 "2G" "2G" "10G" in
  let run := Fixture.replay [Fixture.good; Fixture.good; Fixture.lossy] in
  exists out,
    forall fuel, (5 < fuel)%nat -> run_session args run 2e9 2e9 10e9 fuel = Some out.
Proof.
  intros args run.
  apply (proj1 ramp_past_max_always_terminates args run 2e9 2e9 10e9 5%nat)%float.
  vm_compute. reflexivity.
Defined.

(** ** Looser thresholds *)

Lemma SFleb_trans x y z : SFleb x y = true -> SFleb y z = true -> SFleb x z = true.
Proof.
  unfold SFleb, SFcompare.
  destruct x as [sx|sx| |sx mx ex], y as [sy|sy| |sy my ey], z as [sz|sz| |sz mz ez];
    try destruct sx; try destruct sy; try destruct sz; try (intros; congruence);
    change (Pos.compare_cont Eq mx my) with (mx ?= my)%positive;
    change (Pos.compare_cont Eq my mz) with (my ?= mz)%positive;
    change (Pos.compare_cont Eq mx mz) with (mx ?= mz)%positive;
    destruct (Z.compare_spec ex ey), (Z.compare_spec ey ez), (Z.compare_spec ex ez);
    try lia; try (intros; congruence); subst;
    destruct (Pos.compare_spec mx my), (Pos.compare_spec my mz), (Pos.compare_spec mx mz);
    simpl; try lia; intros; congruence.
Qed.

Lemma leb_trans x y z :
  (x <=? y)%float = true -> (y <=? z)%float = true -> (x <=? z)%float = true.
Proof. rewrite !FloatAxioms.leb_spec. apply SFleb_trans. Qed.

(** A reading within a threshold is within every larger one. *)
Lemma looser_bound thr thr' x :
  (thr <=? thr')%float = true -> (thr <? x)%float = false -> (thr' <? x)%float = false.
Proof.
  intros Hle H. apply ltb_false. apply ltb_false in H.
  destruct H as [H|[H|H]]; [left; eapply leb_trans; eauto|auto|].
  apply leb_not_nan in Hle. destruct Hle as [Hn _]. congruence.
Qed.

(** A throughput not below a floor is not below a smaller one. *)
Lemma lower_floor f f' t :
  (f' <=? f)%float = true \/ is_nan f' = true ->
  (t <? f)%float = false -> (t <? f')%float = false.
Proof.
  intros Hle H. apply ltb_false. destruct Hle as [Hle|Hn]; [|auto].
  apply ltb_false in H. destruct H as [H|[H|H]]; [left; eapply leb_trans; eauto| |auto].
  apply leb_not_nan in Hle. destruct Hle as [_ Hn]. congruence.
Qed.

(** X11.  Loosening the thresholds never rejects what was accepted: a
    measurement that passes the checks still passes them under a loss and a
    jitter threshold that are at least as large and a drop threshold whose
    floor [prev * (1 - drop / 100)], computed as the code computes it, is not
    larger or is not a number. *)
Theorem looser_thresholds_accept_more args args' s prev :
  (Args.loss_threshold args <=? Args.loss_threshold args')%float = true ->
  (Args.jitter_threshold args <=? Args.jitter_threshold args')%float = true ->
  (forall p, prev = Some p ->
             (p * (1 - Args.drop_threshold args' / 100)
              <=? p * (1 - Args.drop_threshold args / 100))%float = true \/
             is_nan (p * (1 - Args.drop_threshold args' / 100))%float = true) ->
  fallback_check args s prev = true ->
  fallback_check args' s prev = true.
Proof.
  intros Hl Hj Hd H. apply fallback_check_spec in H. destruct H as (H1 & H2 & H3).
  apply fallback_check_spec. split; [|split].
  - intros l E. eapply looser_bound; [exact Hl|apply (H1 l E)].
  - intros j E. eapply looser_bound; [exact Hj|apply (H2 j E)].
  - intros t p Et Ep. eapply lower_floor; [apply (Hd p Ep)|apply (H3 t p Et Ep)].
Qed.

(** A throughput of 92 against a baseline of 100 is rejected at a drop
    threshold of 5 and passes at 10, and a loss of 1.5 passes at 2. *)
Lemma looser_thresholds_accept_more_witness :
  let strict := Fixture.args0 "2G" "2G" "10G" in
  let loose :=
    {| Args.server := "10.0.0.1"; Args.port := 5201; Args.direction := "uplink";
       Args.duration := 15; Args.parallel := 4;
       Args.start := "2G"; Args.step := "2G"; Args.max_bps := "10G";
       Args.loss_threshold := 2; Args.jitter_threshold := 8;
       Args.drop_threshold := 10; Args.timeout := 45; Args.out := "out.json";
       Args.meta := Args.MetaInvalid |} in
  let s := {| throughput_bps := Some 96%float; jitter_ms := Some 1%float;
              loss_percent := Some 0.5%float; packets := None |} in
  let s' := {| throughput_bps := Some 92%float; jitter_ms := Some 6%float;
               loss_percent := Some 1.5%float; packets := None |} in
  fallback_check loose s (Some 100%float) = true /\
  fallback_check strict s' (Some 100%float) = false /\
  fallback_check loose s' (Some 100%float) = true.
Proof.
  intros strict loose s s'. split; [|split; vm_compute; reflexivity].
  apply (looser_thresholds_accept_more strict loose s (Some 100%float)).
  - vm_compute. reflexivity.
  - vm_compute. reflexivity.
  - intros p Hp. injection Hp as <-. left. vm_compute. reflexivity.
  - vm_compute. reflexivity.
Defined.

(** ** Readings of a report *)

(** X12.  The readings come from [end.sum] when it is present and not empty,
    and otherwise from [end.sum_received]; without [end], or without either
    object, every reading is absent. *)
Theorem stats_from_sum_then_sum_received (data : report) :
  (data !! "end" = None -> extract_udp_stats data = stats_of ∅) /\
  (forall (e : gmap string (gmap string float)) (m : gmap string float),
      data !! "end" = Some e -> e !! "sum" = Some m -> m <> ∅ ->
      extract_udp_stats data = stats_of m) /\
  (forall (e : gmap string (gmap string float)),
      data !! "end" = Some e -> (e !! "sum" = None \/ e !! "sum" = Some ∅) ->
      extract_udp_stats data = stats_of (default ∅ (e !! "sum_received"))).
Proof.
  unfold extract_udp_stats, stats_of, dict_or. split; [|split].
  - intros He. rewrite He. cbn. rewrite !lookup_empty. cbn.
    repeat (rewrite decide_True by reflexivity). reflexivity.
  - intros e m He Hs Hm. rewrite He. cbn. rewrite Hs. cbn.
    rewrite decide_False by exact Hm. reflexivity.
  - intros e He Hs. rewrite He. cbn.
    assert (Hsum : default (∅ : gmap string float) (e !! "sum") = ∅)
      by (destruct Hs as [-> | ->]; reflexivity).
    rewrite Hsum. rewrite decide_True by reflexivity.
    destruct (decide (default (∅ : gmap string float) (e !! "sum_received") = ∅)) as [->|];
      reflexivity.
Qed.

(** X13.  A report without readings is accepted: when the report has no
    [end], or neither sum carries a loss, a jitter or a throughput, the step
    passes the checks under every threshold and baseline, so the ramp goes on
    to the next target with the baseline unchanged. *)
Theorem report_without_readings_is_accepted args run start_bps step_bps st data c cs :
  probe args run (calls st) (bps_to_str (current st)) = (IperfData data c, cs) ->
  loss_percent (extract_udp_stats data) = None ->
  jitter_ms (extract_udp_stats data) = None ->
  throughput_bps (extract_udp_stats data) = None ->
  exists st',
    loop_body args run start_bps step_bps st = (st', Continue) /\
    current st' = (current st + step_bps)%float /\
    prev_throughput st' = prev_throughput st /\
    (exists s, last_ok st' = Some s /\ ok s = true /\ target_bps s = current st).
Proof.
  intros Hp Hl Hj Ht.
  assert (Hok : fallback_check args (extract_udp_stats data) (prev_throughput st) = true).
  { unfold fallback_check. rewrite Hl, Hj, Ht. reflexivity. }
  rewrite (body_accept _ _ _ _ _ _ _ _ Hp Hok), Ht. eexists. split; [reflexivity|].
  cbn [current prev_throughput last_ok].
  split; [reflexivity|]. split; [reflexivity|].
  eexists. split; [reflexivity|]. split; [exact Hok|reflexivity].
Qed.

Lemma report_without_readings_is_accepted_witness :
  let args := Fixture.args0 "2G" "2G" "10G" in
  let run := Fixture.always (CompletedProcess 0 (Some ∅) "") in
  let st := initial (Fixture.G 2) in
  exists st',
    loop_body args run (Fixture.G 2) (Fixture.G 2) st = (st', Continue) /\
    current st' = (current st + Fixture.G 2)%float /\
    prev_throughput st' = prev_throughput st /\
    (exists s, last_ok st' = Some s /\ ok s = true /\ target_bps s = current st).
Proof.
  intros args run st.
  apply (report_without_readings_is_accepted args run (Fixture.G 2) (Fixture.G 2) st
           ∅ (PyStr.join " " (probe_cmd args "2.000G")) [probe_cmd args "2.000G"]).
  - vm_compute. reflexivity.
  - vm_compute. reflexivity.
  - vm_compute. reflexivity.
  - vm_compute. reflexivity.
Defined.

(** ** White space and letter case *)

Lemma lstrip_head c s : PyStr.is_space c = false -> PyStr.lstrip (String c s) = String c s.
Proof. intros H. simpl. rewrite H. reflexivity. Qed.

Lemma lstrip_blank s : blank s = true -> PyStr.lstrip s = "".
Proof.
  induction s as [|c s IH]; [reflexivity|]. simpl. intros H.
  apply andb_true_iff in H. destruct H as [-> Hs]. apply IH, Hs.
Qed.

Lemma is_space_lower c : PyStr.is_space (PyStr.lower_ascii c) = PyStr.is_space c.
Proof. destruct c as [[|] [|] [|] [|] [|] [|] [|] [|]]; reflexivity. Qed.

Lemma lower_ascii_idem c : PyStr.lower_ascii (PyStr.lower_ascii c) = PyStr.lower_ascii c.
Proof. destruct c as [[|] [|] [|] [|] [|] [|] [|] [|]]; reflexivity. Qed.

Lemma lower_idem s : PyStr.lower (PyStr.lower s) = PyStr.lower s.
Proof.
  induction s as [|c s IH]; [reflexivity|]. simpl. rewrite lower_ascii_idem, IH. reflexivity.
Qed.

Lemma lstrip_lower s : PyStr.lstrip (PyStr.lower s) = PyStr.lower (PyStr.lstrip s).
Proof.
  induction s as [|c s IH]; [reflexivity|]. simpl. rewrite is_space_lower.
  destruct (PyStr.is_space c); [exact IH|reflexivity].
Qed.

Lemma rstrip_lower s : PyStr.rstrip (PyStr.lower s) = PyStr.lower (PyStr.rstrip s).
Proof.
  induction s as [|c s IH]; [reflexivity|]. simpl. rewrite IH, is_space_lower.
  destruct (PyStr.rstrip s); simpl; [destruct (PyStr.is_space c)|]; reflexivity.
Qed.

Lemma strip_lower s : PyStr.strip (PyStr.lower s) = PyStr.lower (PyStr.strip s).
Proof. unfold PyStr.strip. rewrite lstrip_lower, rstrip_lower. reflexivity. Qed.

Lemma rstrip_idem s : PyStr.rstrip (PyStr.rstrip s) = PyStr.rstrip s.
Proof.
  induction s as [|c s IH]; [reflexivity|]. simpl.
  destruct (PyStr.rstrip s) as [|a r] eqn:E.
  - destruct (PyStr.is_space c) eqn:Hc; simpl; [reflexivity|rewrite Hc; reflexivity].
  - simpl. simpl in IH. rewrite IH. reflexivity.
Qed.

Lemma lstrip_head_or_empty s :
  PyStr.lstrip s = "" \/ exists c r, PyStr.lstrip s = String c r /\ PyStr.is_space c = false.
Proof.
  induction s as [|c s IH]; [left; reflexivity|]. simpl.
  destruct (PyStr.is_space c) eqn:Hc; [exact IH|]. right. eauto.
Qed.

Lemma strip_idem s : PyStr.strip (PyStr.strip s) = PyStr.strip s.
Proof.
  unfold PyStr.strip. destruct (lstrip_head_or_empty s) as [->|(c & r & -> & Hc)].
  - reflexivity.
  - assert (H : exists r', PyStr.rstrip (String c r) = String c r').
    { simpl. destruct (PyStr.rstrip r); [rewrite Hc|]; eauto. }
    destruct H as [r' E]. rewrite E. rewrite lstrip_head by exact Hc.
    rewrite <- E. apply rstrip_idem.
Qed.

(** X16.  The decoder ignores letter case and surrounding white space: a
    string, its lower-case form and its stripped form decode alike. *)
Theorem decoding_ignores_case_and_padding s :
  parse_bps (Some (PyStr.lower s)) = parse_bps (Some s) /\
  parse_bps (Some (PyStr.strip s)) = parse_bps (Some s).
Proof.
  unfold parse_bps. rewrite strip_lower, lower_idem, strip_idem. split; reflexivity.
Qed.

(** X17.  What does not decode, and what does.  An absent, empty or
    all-blank bandwidth and a bare unit letter decode to nothing, and with
    such a start, step or maximum [main] exits with "Invalid bandwidth
    values" whatever the probes would return; that is its only exit, taken
    exactly when one of the three does not decode.  The words [inf] and [nan]
    do decode, to the infinite value and to the value that is not a number: a
    session started at [nan] fails the loop test at once and writes a result
    without steps. *)
Theorem invalid_bandwidth_exits_before_probing :
  parse_bps None = None /\
  (forall s, blank s = true -> parse_bps (Some s) = None) /\
  (forall U, In U ["k"; "m"; "g"; "t"; "K"; "M"; "G"; "T"]%char ->
             parse_bps (Some (String U "")) = None) /\
  (forall fuel args run ts,
      (exists v, In v [Args.start args; Args.step args; Args.max_bps args] /\
                 (blank v = true \/
                  exists U, In U ["k"; "m"; "g"; "t"; "K"; "M"; "G"; "T"]%char /\
                            v = String U "")) ->
      main fuel args run ts = Some (SystemExit "Invalid bandwidth values")) /\
  (forall fuel args run ts msg,
      main fuel args run ts = Some (SystemExit msg) <->
      msg = "Invalid bandwidth values" /\
      (parse_bps (Some (Args.start args)) = None \/
       parse_bps (Some (Args.step args)) = None \/
       parse_bps (Some (Args.max_bps args)) = None)) /\
  parse_bps (Some "inf") = Some PrimFloat.infinity /\
  parse_bps (Some "-Infinity") = Some PrimFloat.neg_infinity /\
  option_map is_nan (parse_bps (Some "nan")) = Some true /\
  (exists o,
      main 1 (Fixture.args0 "nan" "2G" "10G") (Fixture.always Fixture.good) "t"
      = Some (Written "out.json" o) /\
      o_steps o = [] /\ o_selected o = None /\ o_stop_reason o = "max_reached").
Proof.
  assert (Hblank : forall s, blank s = true -> parse_bps (Some s) = None).
  { intros s Hs. unfold parse_bps, PyStr.strip. rewrite (lstrip_blank s Hs). reflexivity. }
  assert (Hunit : forall U, In U ["k"; "m"; "g"; "t"; "K"; "M"; "G"; "T"]%char ->
                            parse_bps (Some (String U "")) = None).
  { intros U HU. simpl in HU.
    repeat (destruct HU as [<-|HU]; [vm_compute; reflexivity|]). destruct HU. }
  assert (Hexit : forall fuel args run ts msg,
      main fuel args run ts = Some (SystemExit msg) <->
      msg = "Invalid bandwidth values" /\
      (parse_bps (Some (Args.start args)) = None \/
       parse_bps (Some (Args.step args)) = None \/
       parse_bps (Some (Args.max_bps args)) = None)).
  { intros fuel args run ts msg. unfold main.
    destruct (parse_bps (Some (Args.start args))) as [a|];
      [|split; [intros H; injection H as <-; auto|intros [-> _]; reflexivity]].
    destruct (parse_bps (Some (Args.step args))) as [b|];
      [|split; [intros H; injection H as <-; auto|intros [-> _]; reflexivity]].
    destruct (parse_bps (Some (Args.max_bps args))) as [c|];
      [|split; [intros H; injection H as <-; auto|intros [-> _]; reflexivity]].
    split.
    + intros H. destruct (run_session args run a b c fuel); [|discriminate].
      destruct (Args.meta args); discriminate.
    + intros (_ & [H|[H|H]]); discriminate. }
  split; [reflexivity|]. split; [exact Hblank|]. split; [exact Hunit|].
  split; [|split; [exact Hexit|]].
  - intros fuel args run ts (v & Hin & Hv). apply Hexit. split; [reflexivity|].
    assert (Hnone : parse_bps (Some v) = None).
    { destruct Hv as [Hb|(U & HU & ->)]; [apply Hblank, Hb|apply Hunit, HU]. }
    simpl in Hin. destruct Hin as [<-|[<-|[<-|[]]]]; auto.
  - split; [vm_compute; reflexivity|]. split; [vm_compute; reflexivity|].
    split; [vm_compute; reflexivity|].
    eexists. split; [vm_compute; reflexivity|]. repeat split.
Qed.

(** ** The report helpers *)

(** X19.  The two report modules print a bandwidth alike, and from 1000 on
    they print the number the encoder prints: [human_bps] and [fmt_bps] agree
    on every value, and where [bps_to_str] gives a number and a unit letter
    they give that number, a space, the letter and "bps". *)
Theorem reports_print_bandwidth_alike :
  (forall v, Analyze.human_bps v = Report.fmt_bps v) /\
  (forall x, (1e3 <=? x)%float = true ->
             exists num U,
               bps_to_str x = num +:+ String U "" /\
               Report.fmt_bps (Some x) = num +:+ " " +:+ String U "bps").
Proof.
  split.
  - intros [v|]; [|reflexivity]. unfold Analyze.human_bps, Report.fmt_bps.
    cbn [Analyze.human_bps_units].
    repeat (destruct (PrimFloat.leb _ v); [reflexivity|]). reflexivity.
  - intros x Hx. unfold bps_to_str, Report.fmt_bps.
    destruct (1e9 <=? x)%float; [eexists _, _; split; reflexivity|].
    destruct (1e6 <=? x)%float; [eexists _, _; split; reflexivity|].
    rewrite Hx. eexists _, _; split; reflexivity.
Qed.

Lemma reports_print_bandwidth_alike_witness :
  bps_to_str 2500000%float = "2.500M" /\
  Report.fmt_bps (Some 2500000%float) = "2.500 Mbps" /\
  exists num U,
    bps_to_str 2500000%float = num +:+ String U "" /\
    Report.fmt_bps (Some 2500000%float) = num +:+ " " +:+ String U "bps".
Proof.
  split; [vm_compute; reflexivity|]. split; [vm_compute; reflexivity|].
  apply (proj2 reports_print_bandwidth_alike 2500000%float). vm_compute. reflexivity.
Defined.

(** ** What a record says about its probe *)

Lemma probe_cmd_string args run calls bw :
  match fst (probe args run calls bw) with
  | IperfError _ c _ => c = PyStr.join " " (probe_cmd args bw)
  | IperfData _ c => c = PyStr.join " " (probe_cmd args bw)
  end.
Proof.
  unfold probe, run_iperf, probe_cmd. repeat case_match; simplify_eq/=; reflexivity.
Qed.

Section Consistent.

Variable args : Args.t.
Variable run : subprocess.
Variables start_bps step_bps max_bps : float.

(** A probe keeps what the log holds. *)
Lemma consistent_probed st bw res cs :
  records_consistent args st ->
  probe args run (calls st) bw = (res, cs) ->
  Forall (record_consistent args cs) (steps st).
Proof.
  intros H Hp. rewrite (probe_log_eq _ _ _ _ _ _ Hp).
  eapply Forall_impl; [exact H|]. intros s (Ht & Hc & Hin).
  split; [exact Ht|]. split; [exact Hc|]. apply in_or_app. left. exact Hin.
Qed.

(** The record of a probe at the printed bandwidth [bw] names that probe. *)
Lemma consistent_record st bw res cs c x :
  probe args run (calls st) bw = (res, cs) ->
  c = PyStr.join " " (probe_cmd args bw) ->
  target_str x = bw -> bw = bps_to_str (target_bps x) -> cmd x = Some c ->
  record_consistent args cs x.
Proof.
  intros Hp -> Hs Ht Hc. rewrite (probe_log_eq _ _ _ _ _ _ Hp).
  split; [congruence|]. split; [congruence|].
  rewrite Hs. apply in_or_app. right. left. reflexivity.
Qed.

Lemma consistent_snoc st bw res cs c x :
  records_consistent args st ->
  probe args run (calls st) bw = (res, cs) ->
  c = PyStr.join " " (probe_cmd args bw) ->
  target_str x = bw -> bw = bps_to_str (target_bps x) -> cmd x = Some c ->
  Forall (record_consistent args cs) (steps st ++ [x]).
Proof.
  intros H Hp Hc Hs Ht Hx. apply Forall_app. split; [eapply consistent_probed; eauto|].
  constructor; [eapply consistent_record; eauto|constructor].
Qed.

Lemma step_down_consistent st lok :
  records_consistent args st -> records_consistent args (step_down args run start_bps step_bps st lok).
Proof.
  intros H.
  destruct (PrimFloat.ltb (py_max start_bps (target_bps lok - step_bps)) (target_bps lok)) eqn:Hd.
  - destruct (probe args run (calls st)
                (bps_to_str (py_max start_bps (target_bps lok - step_bps))))
      as [[e c se|d c] cs] eqn:Hp.
    + rewrite (step_down_error _ _ _ _ _ _ _ _ _ _ Hd Hp).
      unfold records_consistent. simpl. eapply consistent_probed; eauto.
    + rewrite (step_down_data _ _ _ _ _ _ _ _ _ Hd Hp).
      pose proof (probe_cmd_string args run (calls st)
                    (bps_to_str (py_max start_bps (target_bps lok - step_bps)))) as Hc.
      rewrite Hp in Hc. simpl in Hc.
      destruct (ok _); unfold records_consistent; simpl;
        eapply consistent_snoc; eauto.
  - rewrite (step_down_skip _ _ _ _ _ _ Hd). exact H.
Qed.

Lemma fallback_consistent st lok :
  records_consistent args st ->
  records_consistent args (fallback_protocol args run start_bps step_bps st lok).
Proof.
  intros H.
  destruct (probe args run (calls st) (bps_to_str (target_bps lok)))
    as [[e c se|d c] cs] eqn:Hp.
  - rewrite (fallback_error _ _ _ _ _ _ _ _ _ _ Hp). apply step_down_consistent.
    unfold records_consistent. simpl. eapply consistent_probed; eauto.
  - rewrite (fallback_data _ _ _ _ _ _ _ _ _ Hp).
    pose proof (probe_cmd_string args run (calls st) (bps_to_str (target_bps lok))) as Hc.
    rewrite Hp in Hc. simpl in Hc.
    assert (Hrec : Forall (record_consistent args cs)
                     (steps st ++ [confirm_record args lok (prev_throughput st) d c]))
      by (eapply consistent_snoc; eauto).
    destruct (ok _).
    + exact Hrec.
    + apply step_down_consistent. exact Hrec.
Qed.

Lemma body_consistent st :
  records_consistent args st ->
  records_consistent args (fst (loop_body args run start_bps step_bps st)).
Proof.
  intros H.
  pose proof (probe_cmd_string args run (calls st) (bps_to_str (current st))) as Hc.
  destruct (body_cases args run st)
    as [(e & c & se & cs & Hp)|[(d & c & cs & Hp & Hk)|(d & c & cs & Hp & Hk)]];
    rewrite Hp in Hc; simpl in Hc.
  - rewrite (body_error _ _ _ _ _ _ _ _ _ Hp). unfold records_consistent. simpl.
    eapply consistent_snoc; eauto.
  - rewrite (body_accept _ _ _ _ _ _ _ _ Hp Hk). unfold records_consistent. simpl.
    eapply consistent_snoc; eauto.
  - rewrite (body_reject _ _ _ _ _ _ _ _ Hp Hk). simpl.
    assert (Hrej : records_consistent args (rejected args st d c cs)).
    { unfold records_consistent. simpl. eapply consistent_snoc; eauto. }
    destruct (last_ok st); [destruct (negb (fallback_attempted st))|]; auto.
    apply fallback_consistent, Hrej.
Qed.

Lemma loop_consistent fuel st out :
  records_consistent args st ->
  while_loop args run start_bps step_bps max_bps fuel st = Some out ->
  records_consistent args out.
Proof.
  revert st. induction fuel as [|fuel IH]; intros st Hs H; [discriminate|].
  simpl in H. destruct (loop_cond max_bps st).
  - pose proof (body_consistent st Hs) as Hb.
    destruct (loop_body args run start_bps step_bps st) as [st' []]; simpl in Hb.
    + eapply IH; eauto.
    + simplify_eq. exact Hb.
  - simplify_eq. exact Hs.
Qed.

End Consistent.

(** X21.  Every record of a finished session names a probe that was run:
    [target_str] is the encoding of [target_bps], [cmd] is the [iperf3]
    command line with [-c], the server, [-p], the port, [-t], the duration,
    [-P], the parallel count, [-J], [-u], then [-b] followed by that string,
    and [-R] at the end for a downlink, joined by spaces; and this command
    line is one of those handed to the subprocess. *)
Theorem records_name_their_probe args run start_bps step_bps max_bps fuel out :
  run_session args run start_bps step_bps max_bps fuel = Some out ->
  forall s, In s (steps out) ->
    let words :=
      ["iperf3"; "-c"; Args.server args; "-p"; PyStr.str_Z (Args.port args);
       "-t"; PyStr.str_Z (Args.duration args); "-P"; PyStr.str_Z (Args.parallel args);
       "-J"; "-u"; "-b"; target_str s]
      ++ (if String.eqb (Args.direction args) "downlink" then ["-R"] else []) in
    target_str s = bps_to_str (target_bps s) /\
    cmd s = Some (PyStr.join " " words) /\
    In words (calls out).
Proof.
  intros H s Hin words.
  assert (Hall : records_consistent args out).
  { eapply loop_consistent; [|exact H]. constructor. }
  unfold records_consistent in Hall. rewrite List.Forall_forall in Hall.
  destruct (Hall s Hin) as (Ht & Hc & Hlog).
  rewrite probe_cmd_words in Hc, Hlog. auto.
Qed.

Lemma records_name_their_probe_witness :
  let args :=
    {| Args.server := "10.0.0.1"; Args.port := 5201; Args.direction := "downlink";
       Args.duration := 15; Args.parallel := 4;
       Args.start := "2G"; Args.step := "2G"; Args.max_bps := "10G";
       Args.loss_threshold := 1; Args.jitter_threshold := 5;
       Args.drop_threshold := 5; Args.timeout := 45; Args.out := "out.json";
       Args.meta := Args.MetaInvalid |} in
  let words :=
    ["iperf3"; "-c"; "10.0.0.1"; "-p"; "5201"; "-t"; "15"; "-P"; "4"; "-J"; "-u";
     "-b"; "4.000G"; "-R"] in
  match run_session args
          (Fixture.replay [Fixture.good; Fixture.good; Fixture.lossy; Fixture.good])
          2e9 2e9 10e9 10 with
  | Some out =>
      match steps out !! 3%nat with
      | Some s =>
          target_bps s = 4e9%float /\ target_str s = "4.000G" /\
          cmd s = Some "iperf3 -c 10.0.0.1 -p 5201 -t 15 -P 4 -J -u -b 4.000G -R" /\
          In words (calls out)
      | None => False
      end
  | None => False
  end.
Proof.
  intros args words.
  destruct (run_session args
              (Fixture.replay [Fixture.good; Fixture.good; Fixture.lossy; Fixture.good])
              2e9 2e9 10e9 10) as [out|] eqn:H; [|vm_compute in H; discriminate H].
  destruct (steps out !! 3%nat) as [s|] eqn:Hs.
  - assert (Hin : In s (steps out))
      by (apply list_elem_of_In; eapply list_elem_of_lookup_2; exact Hs).
    destruct (records_name_their_probe _ _ _ _ _ _ _ H s Hin) as (Ht & Hc & Hlog).
    assert (Htb : target_bps s = 4e9%float).
    { clear Hin Ht Hc Hlog. vm_compute in H. injection H as <-.
      vm_compute in Hs. injection Hs as <-. reflexivity. }
    rewrite Htb in Ht.
    assert (Hstr : bps_to_str 4e9 = "4.000G") by (vm_compute; reflexivity).
    rewrite Hstr in Ht. rewrite Ht in Hc, Hlog.
    split; [exact Htb|]. split; [exact Ht|]. split; [exact Hc|exact Hlog].
  - vm_compute in H. injection H as <-. vm_compute in Hs. discriminate Hs.
Defined.

(** ** Appending and letter case *)

Lemma append_cons c x r : String c x +:+ r = String c (x +:+ r).
Proof. reflexivity. Qed.

Lemma lower_app a b : PyStr.lower (a +:+ b) = PyStr.lower a +:+ PyStr.lower b.
Proof.
  induction a as [|c a IH]; [reflexivity|].
  rewrite append_cons. simpl. rewrite IH. reflexivity.
Qed.

(** ** Test names *)

Section Slug.

Import PublicList.

Lemma underscore_no_slug_char c : Ascii.eqb c "_" = true -> is_slug_char c = false.
Proof. intros H. apply Ascii.eqb_eq in H. subst c. reflexivity. Qed.

Lemma slug_char_not_underscore c : is_slug_char c = true -> Ascii.eqb c "_" = false.
Proof.
  intros H. destruct (Ascii.eqb c "_") eqn:E; [|reflexivity].
  rewrite (underscore_no_slug_char c E) in H. discriminate.
Qed.

Lemma slug_char_lower c :
  is_slug_char c || Ascii.eqb c "_" = true -> PyStr.lower_ascii c = c.
Proof. destruct c as [[|] [|] [|] [|] [|] [|] [|] [|]]; intros H; try reflexivity; discriminate. Qed.

Lemma slug_run_sub_runs b s : slug_run b (sub_runs b s) = true.
Proof.
  revert b. induction s as [|c r IH]; intros b; [reflexivity|]. simpl.
  destruct (is_slug_char c) eqn:Hc.
  - simpl. rewrite Hc. apply IH.
  - destruct b; [apply IH|]. simpl. rewrite (IH true). reflexivity.
Qed.

Lemma slug_run_weaken b s : slug_run b s = true -> slug_run false s = true.
Proof.
  destruct s as [|c r]; [reflexivity|]. simpl.
  destruct (is_slug_char c); [auto|]. destruct b; simpl; [|auto].
  rewrite andb_false_r. discriminate.
Qed.

Lemma lstrip_us_fixed s : slug_run true s = true -> lstrip_us s = s.
Proof.
  destruct s as [|c r]; [reflexivity|]. simpl.
  destruct (is_slug_char c) eqn:Hc.
  - rewrite (slug_char_not_underscore c Hc). reflexivity.
  - rewrite andb_false_r. discriminate.
Qed.

Lemma lstrip_us_run s : slug_run false s = true -> slug_run true (lstrip_us s) = true.
Proof.
  destruct s as [|c r]; [reflexivity|]. simpl.
  destruct (is_slug_char c) eqn:Hc.
  - rewrite (slug_char_not_underscore c Hc). simpl. rewrite Hc. auto.
  - destruct (Ascii.eqb c "_"); [|discriminate]. simpl. intros H.
    rewrite (lstrip_us_fixed r H). exact H.
Qed.

Lemma rstrip_us_slug b s :
  slug_run b s = true -> rstrip_us s = "" \/ slug_from b (rstrip_us s) = true.
Proof.
  revert b. induction s as [|c r IH]; intros b H; [left; reflexivity|].
  simpl in H |- *. destruct (is_slug_char c) eqn:Hc.
  - right. destruct (IH false H) as [E|E].
    + rewrite E, (slug_char_not_underscore c Hc). simpl. rewrite Hc. reflexivity.
    + destruct (rstrip_us r) as [|a r'] eqn:Er.
      * rewrite (slug_char_not_underscore c Hc). simpl. rewrite Hc. reflexivity.
      * cbn [slug_from]. rewrite Hc. exact E.
  - destruct (Ascii.eqb c "_") eqn:Hu; [|discriminate].
    destruct b; [discriminate|]. simpl in H.
    destruct (IH true H) as [E|E]; [left; rewrite E; reflexivity|].
    destruct (rstrip_us r) as [|a r'] eqn:Er; [discriminate|]. right.
    cbn [slug_from]. rewrite Hc, Hu. exact E.
Qed.

Lemma slug_from_run b s : slug_from b s = true -> slug_run b s = true.
Proof.
  revert b. induction s as [|c r IH]; intros b H; [reflexivity|].
  simpl in H |- *. destruct (is_slug_char c); [auto|].
  apply andb_true_iff in H. destruct H as [-> H]. simpl. auto.
Qed.

Lemma rstrip_us_fixed b s : slug_from b s = true -> rstrip_us s = s.
Proof.
  revert b. induction s as [|c r IH]; intros b H; [reflexivity|].
  simpl in H |- *. destruct (is_slug_char c) eqn:Hc.
  - rewrite (IH false H). destruct r; [|reflexivity].
    rewrite (slug_char_not_underscore c Hc). reflexivity.
  - apply andb_true_iff in H. destruct H as [_ H]. rewrite (IH true H).
    destruct r; [discriminate|reflexivity].
Qed.

Lemma sub_runs_fixed b s : slug_run b s = true -> sub_runs b s = s.
Proof.
  revert b. induction s as [|c r IH]; intros b H; [reflexivity|].
  simpl in H |- *. destruct (is_slug_char c) eqn:Hc.
  - rewrite (IH false H). reflexivity.
  - apply andb_true_iff in H. destruct H as [H1 H].
    apply andb_true_iff in H1. destruct H1 as [Hu Hb].
    destruct b; [discriminate|]. rewrite (IH true H).
    apply Ascii.eqb_eq in Hu. subst c. reflexivity.
Qed.

Lemma lower_fixed b s : slug_run b s = true -> PyStr.lower s = s.
Proof.
  revert b. induction s as [|c r IH]; intros b H; [reflexivity|].
  simpl in H |- *. destruct (is_slug_char c) eqn:Hc.
  - rewrite (IH false H), slug_char_lower by (rewrite Hc; reflexivity). reflexivity.
  - apply andb_true_iff in H. destruct H as [H1 H].
    apply andb_true_iff in H1. destruct H1 as [Hu _].
    rewrite (IH true H), slug_char_lower by (rewrite Hu; apply orb_true_r). reflexivity.
Qed.

Lemma has_slug_sub_runs b s : has_slug_char (sub_runs b s) = has_slug_char s.
Proof.
  revert b. induction s as [|c r IH]; intros b; [reflexivity|]. simpl.
  destruct (is_slug_char c) eqn:Hc; simpl; [rewrite Hc; reflexivity|].
  destruct b; simpl; apply IH.
Qed.

Lemma has_slug_lstrip s : has_slug_char (lstrip_us s) = has_slug_char s.
Proof.
  induction s as [|c r IH]; [reflexivity|]. simpl.
  destruct (Ascii.eqb c "_") eqn:Hu; [|reflexivity].
  rewrite (underscore_no_slug_char c Hu). exact IH.
Qed.

Lemma has_slug_rstrip s : has_slug_char (rstrip_us s) = has_slug_char s.
Proof.
  induction s as [|c r IH]; [reflexivity|]. simpl. rewrite <- IH.
  destruct (rstrip_us r) as [|a r']; [|reflexivity].
  destruct (Ascii.eqb c "_") eqn:Hu; [|reflexivity].
  rewrite (underscore_no_slug_char c Hu). reflexivity.
Qed.

Lemma slug_from_has_char b s : slug_from b s = true -> s <> "" -> has_slug_char s = true.
Proof.
  revert b. induction s as [|c r IH]; intros b H Hne; [congruence|].
  simpl in H |- *. destruct (is_slug_char c); [reflexivity|]. simpl.
  apply andb_true_iff in H. destruct H as [_ H]. apply (IH true H).
  intros ->. discriminate.
Qed.

Lemma has_slug_app a b : has_slug_char (a +:+ b) = has_slug_char a || has_slug_char b.
Proof.
  induction a as [|c a IH]; [reflexivity|].
  change (String c a +:+ b) with (String c (a +:+ b)). simpl. rewrite IH, orb_assoc.
  reflexivity.
Qed.

Lemma slugify_slug text : slug (slugify text) = true.
Proof.
  unfold slugify, strip_us.
  pose proof (lstrip_us_run _ (slug_run_weaken _ _
                (slug_run_sub_runs false (PyStr.lower text)))) as H.
  destruct (rstrip_us_slug _ _ H) as [->|E]; [reflexivity|].
  unfold slug. destruct (rstrip_us _); [reflexivity|exact E].
Qed.

Lemma slugify_fixed s : slug s = true -> slugify s = s.
Proof.
  destruct s as [|c r]; [reflexivity|]. unfold slug. intros H.
  pose proof (slug_from_run _ _ H) as Hr.
  unfold slugify, strip_us.
  rewrite (lower_fixed _ _ Hr), (sub_runs_fixed _ _ (slug_run_weaken _ _ Hr)).
  rewrite (lstrip_us_fixed _ Hr). apply (rstrip_us_fixed _ _ H).
Qed.

Lemma slugify_empty text :
  slugify text = "" <-> has_slug_char (PyStr.lower text) = false.
Proof.
  pose proof (slugify_slug text) as Hs.
  assert (Hh : has_slug_char (slugify text) = has_slug_char (PyStr.lower text)).
  { unfold slugify, strip_us. rewrite has_slug_rstrip, has_slug_lstrip, has_slug_sub_runs.
    reflexivity. }
  rewrite <- Hh. split; [intros ->; reflexivity|]. intros Hn.
  destruct (slugify text) as [|c r] eqn:E; [reflexivity|].
  unfold slug in Hs. rewrite (slug_from_has_char _ _ Hs) in Hn by discriminate.
  discriminate.
Qed.

End Slug.

(** X22.  [slugify] returns a well-formed slug and returns such a slug
    unchanged: the result holds only [a-z], [0-9] and single underscores
    between them, with none at the start or the end; applying it twice changes
    nothing; and the result is empty exactly when the text, in lower case,
    has no character of [a-z0-9]. *)
Theorem slugify_normalises (text : string) :
  slug (PublicList.slugify text) = true /\
  PublicList.slugify (PublicList.slugify text) = PublicList.slugify text /\
  (forall s, slug s = true -> PublicList.slugify s = s) /\
  (PublicList.slugify text = "" <-> has_slug_char (PyStr.lower text) = false).
Proof.
  split; [apply slugify_slug|]. split; [apply slugify_fixed, slugify_slug|].
  split; [apply slugify_fixed|apply slugify_empty].
Qed.

Lemma has_slug_join l :
  has_slug_char (PyStr.lower (PyStr.join "_" l))
  = existsb (fun x => has_slug_char (PyStr.lower x)) l.
Proof.
  induction l as [|x [|y r] IH]; [reflexivity|simpl; rewrite orb_false_r; reflexivity|].
  change (PyStr.join "_" (x :: y :: r)) with (x +:+ "_" +:+ PyStr.join "_" (y :: r)).
  rewrite !lower_app, !has_slug_app, IH. reflexivity.
Qed.

Lemma truthy_host host l :
  existsb (fun x => has_slug_char (PyStr.lower x)) (l ++ PublicList.truthy (Some host)) = false ->
  has_slug_char (PyStr.lower host) = false.
Proof.
  rewrite existsb_app. intros H. apply orb_false_iff in H. destruct H as [_ H].
  destruct host as [|c r]; [reflexivity|]. simpl in H. rewrite orb_false_r in H. exact H.
Qed.

(** X23.  The base of a test name in [build_tests] is never empty and is a
    well-formed slug: it is the slug of the non-empty fields joined by
    underscores, or [iperf] when that slug is empty.  The slug of the host
    alone, which the code tries first in that case, is then always empty. *)
Theorem base_name_is_a_slug (country site provider : option string) (host : string) :
  let joined :=
    PyStr.join "_" (PublicList.truthy country ++ PublicList.truthy site
                    ++ PublicList.truthy provider ++ PublicList.truthy (Some host)) in
  PublicList.base_name country site provider host
  = (if String.eqb (PublicList.slugify joined) "" then "iperf"
     else PublicList.slugify joined) /\
  PublicList.base_name country site provider host <> "" /\
  slug (PublicList.base_name country site provider host) = true.
Proof.
  intros joined. unfold PublicList.base_name. fold joined.
  pose proof (slugify_slug joined) as Hs.
  destruct (PublicList.slugify joined) as [|c r] eqn:E.
  - apply slugify_empty in E. unfold joined in E. rewrite has_slug_join in E.
    rewrite !app_assoc in E. apply truthy_host in E. apply slugify_empty in E.
    rewrite E. simpl. repeat split. discriminate.
  - split; [reflexivity|]. split; [discriminate|exact Hs].
Qed.
